(** * AnimateGifApp: the job registry, the credential gate and the
      conversion adapter of the video-to-GIF web service

    Shallow embedding of [src/app.py] and [src/video_to_gif.py].

    - Python dictionaries are [gmap]s keyed by strings: the global
      [conversion_tasks] maps a job id to the job's own dictionary, whose
      keys are ['status'], ['progress'], ['output_filename'], ['error'].
    - Code that touches the global dictionary, the temporary directory or
      the media library runs in a state-and-exception monad over a [world].
    - The media library (moviepy) is an external collaborator: which of its
      calls raise, and what the opened clip looks like, is read from a
      [library] record.
    - A Python float is carried as the rational it is equal to ([Q]);
      additions, subtractions and products are rounded as IEEE binary64
      rounds them (round to nearest, ties to even), through the Standard
      Library's [SpecFloat]. Rationals have no NaN and no infinity: an
      overflow is carried as plus or minus 2^1024, and whether [int()]
      raises on its argument is left to the environment.
    - A Python [str] is carried as the bytes of its UTF-8 encoding.
      [str.lower], [int], [float] and werkzeug's [secure_filename] are
      parameters of the code that calls them. *)

From Stdlib Require Import ZArith QArith Qround Lqa String Ascii List Sorted SpecFloat.
From stdpp Require Import base option gmap strings list fin_maps.

Local Open Scope Z_scope.
Local Open Scope string_scope.
Local Open Scope list_scope.

(** ** Python values and exceptions *)

(** The values stored in a job's dictionary. *)
Inductive pyval : Type :=
| VStr (s : string)
| VInt (z : Z).

#[global] Instance pyval_eq_dec : EqDecision pyval.
Proof. solve_decision. Defined.

(** The exceptions the modelled code can meet. [KeyError k] comes from a
    dictionary subscript, [TypeError] from an operation on a value of the
    wrong type, [OSError] from [os.unlink]; [LibraryError msg] is any fault
    raised below the adapter's own statements: by the media library, or by
    [int()] on a product that is NaN or infinite. All are subclasses of
    [Exception]. *)
Inductive exn : Type :=
| KeyError (k : string)
| TypeError (msg : string)
| OSError (msg : string)
| LibraryError (msg : string).

(** [str(e)]: a [KeyError] prints the repr of its key. *)
Definition str_of_exn (e : exn) : string :=
  match e with
  | KeyError k => "'" +:+ k +:+ "'"
  | TypeError msg => msg
  | OSError msg => msg
  | LibraryError msg => msg
  end.

Inductive result (A : Type) : Type :=
| Ok (a : A)
| Raise (e : exn).
Arguments Ok {A} a.
Arguments Raise {A} e.

(** ** The library calls and the observable events of a conversion *)

(** The calls of one conversion whose failure the environment decides: six
    calls into the media library, the conversions [int(...)] of
    video_to_gif.py line 78, and [os.unlink] of app.py line 130. *)
Inductive call : Type :=
| CallVideoFileClip | CallSubclipped | CallWithSpeedScaled
| CallResized | CallWithFps | CallWriteGif
| CallInt | CallUnlink.

#[global] Instance call_eq_dec : EqDecision call.
Proof. solve_decision. Defined.

(** What the environment decides for one conversion. [source_duration],
    [source_w], [source_h] are [clip.duration], [clip.w], [clip.h] of the
    opened source; [fault c] is the message of the exception call [c]
    raises, if it raises; [produces_output] says whether [write_gif] leaves
    a file at the output path when it returns. *)
Record library : Type := Library {
  source_duration : Q;
  source_w : Z;
  source_h : Z;
  fault : call → option string;
  produces_output : bool
}.

Inductive event : Type :=
| Progress (percent : Z)                 (* progress_callback(percent) was called *)
| Opened (path : string)                 (* VideoFileClip(path) returned a clip *)
| Subclipped (t0 : Q) (t1 : option Q)    (* clip.subclipped(t0[, t1]) returned *)
| SpeedScaled (factor : Q)
| Resized (w h : Z)
| WithFps (fps : Z)
| WroteGif (path : string) (fps loops : Z)
| Closed.                                (* clip.close() *)

(** ** The world: global dictionary, temporary directory, open readers *)

Record world : Type := World {
  conversion_tasks : gmap string (gmap string pyval);
  files : gset string;
  open_readers : nat;
  trace : list event
}.

Definition set_tasks (t : gmap string (gmap string pyval)) (w : world) : world :=
  World t (files w) (open_readers w) (trace w).
Definition set_files (f : gset string) (w : world) : world :=
  World (conversion_tasks w) f (open_readers w) (trace w).
Definition set_readers (n : nat) (w : world) : world :=
  World (conversion_tasks w) (files w) n (trace w).
Definition emit (e : event) (w : world) : world :=
  World (conversion_tasks w) (files w) (open_readers w) (trace w ++ [e]).

(** ** State and exception monad *)

Definition M (A : Type) : Type := world → result A * world.

#[global] Instance M_ret : MRet M := λ A a w, (Ok a, w).
#[global] Instance M_bind : MBind M := λ A B f m w,
  match m w with
  | (Ok a, w') => f a w'
  | (Raise e, w') => (Raise e, w')
  end.

Definition raise {A} (e : exn) : M A := λ w, (Raise e, w).
Definition get_world : M world := λ w, (Ok w, w).
Definition modify (f : world → world) : M unit := λ w, (Ok tt, f w).

(** [try: body except Exception as e: handler e] *)
Definition try_except {A} (body : M A) (handler : exn → M A) : M A := λ w,
  match body w with
  | (Ok a, w') => (Ok a, w')
  | (Raise e, w') => handler e w'
  end.

(** [try: body finally: fin]. The [finally] block runs on every exit of
    [body]; the outcome of [body] is kept unless [fin] itself raises. *)
Definition try_finally {A} (body : M A) (fin : M unit) : M A := λ w,
  match body w with
  | (r, w') =>
      match fin w' with
      | (Ok _, w'') => (r, w'')
      | (Raise e, w'') => (Raise e, w'')
      end
  end.

(** ** The job registry (app.py) *)

Definition status_of (task : gmap string pyval) : option pyval := task !! "status".
Definition progress_of (task : gmap string pyval) : option pyval := task !! "progress".

(** [d.update(other)]: the keys of [other] overwrite those of [d]. *)
Definition dict_update (other d : gmap string pyval) : gmap string pyval := other ∪ d.

(** [conversion_tasks[job_id] = task] *)
Definition tasks_setitem (job_id : string) (task : gmap string pyval) : M unit :=
  modify (λ w, set_tasks (<[job_id := task]> (conversion_tasks w)) w).

(** [conversion_tasks[job_id].update(other)]: the subscript raises
    [KeyError] when the job id is not a key. *)
Definition tasks_update (job_id : string) (other : gmap string pyval) : M unit := λ w,
  match conversion_tasks w !! job_id with
  | Some task => (Ok tt, set_tasks (<[job_id := dict_update other task]> (conversion_tasks w)) w)
  | None => (Raise (KeyError job_id), w)
  end.

(** app.py, [update_progress] *)
Definition update_progress (job_id : string) (progress : Z) : M unit := λ w,
  match conversion_tasks w !! job_id with
  | Some task =>
      (Ok tt, set_tasks (<[job_id := <["progress" := VInt progress]> task]> (conversion_tasks w)) w)
  | None => (Ok tt, w)
  end.

(** app.py line 119, the statement run on adapter success (the registry's
    [complete] operation). *)
Definition completed_fields : gmap string pyval :=
  {[ "status" := VStr "completed"; "progress" := VInt 100 ]}.
Definition complete (job_id : string) : M unit := tasks_update job_id completed_fields.

(** app.py lines 121 and 125, the statement run on failure (the registry's
    [fail] operation). *)
Definition failed_fields (detail : string) : gmap string pyval :=
  {[ "status" := VStr "failed"; "progress" := VInt 0; "error" := VStr detail ]}.
Definition fail_job (job_id detail : string) : M unit :=
  tasks_update job_id (failed_fields detail).

(** ** The conversion adapter (video_to_gif.py) *)

(** A clip as the adapter reads it: [clip.duration], [clip.w], [clip.h].
    Every clip derived from the opened source shares the source's reader. *)
Record clip : Type := Clip { duration_of : Q; w_of : Z; h_of : Z }.

(** Python's [a > b] on two floats, each carried as its exact value. *)
Definition Qgt_bool (a b : Q) : bool := negb (Qle_bool a b).

(** Python's [int(x)] on a finite float: truncation towards zero. *)
Definition py_int (x : Q) : Z := Z.quot (Qnum x) (Zpos (Qden x)).

(** *** Binary64 arithmetic *)

(** [Some k] when [p] is [2^k]. *)
Fixpoint log2_exact (p : positive) : option Z :=
  match p with
  | xH => Some 0
  | xO p' => Z.succ <$> log2_exact p'
  | xI _ => None
  end.

(** The float nearest to an integer ([float(z)], and the conversion Python
    applies to the [int] operand of [int * float]). *)
Definition float_of_Z (z : Z) : spec_float := binary_normalize 53 1024 z 0 false.

(** The binary64 nearest to a rational: the float itself when the rational
    is the value of one. *)
Definition to_float (q : Q) : spec_float :=
  match log2_exact (Qden q) with
  | Some k => binary_normalize 53 1024 (Qnum q) (- k) false
  | None => SFdiv 53 1024 (float_of_Z (Qnum q)) (float_of_Z (Zpos (Qden q)))
  end.

(** The value of a binary64, in lowest terms; an infinity is carried as
    plus or minus [2^1024], which [to_float] sends back to it. NaN does not
    arise from finite operands of [+], [-] and [*]. *)
Definition of_float (x : spec_float) : Q :=
  match x with
  | S754_zero _ => 0%Q
  | S754_nan => 0%Q
  | S754_infinity s => inject_Z (if s then - 2 ^ 1024 else 2 ^ 1024)
  | S754_finite s m e =>
      let n := if s then Zneg m else Zpos m in
      if (0 <=? e)%Z then inject_Z (n * 2 ^ e) else Qred (n # Z.to_pos (2 ^ (- e)))
  end.

(** [float(q)] *)
Definition round64 (q : Q) : Q := of_float (to_float q).

(** Python's [a + b], [a - b] and [a * b] on floats. *)
Definition py_add (a b : Q) : Q := of_float (SFadd 53 1024 (to_float a) (to_float b)).
Definition py_sub (a b : Q) : Q := of_float (SFsub 53 1024 (to_float a) (to_float b)).
Definition py_mul (a b : Q) : Q := of_float (SFmul 53 1024 (to_float a) (to_float b)).

(** One call into the media library: it raises the fault the environment
    has chosen for it, or returns and is recorded. *)
Definition lib_call (lib : library) (c : call) (ev : event) : M unit := λ w,
  match fault lib c with
  | Some msg => (Raise (LibraryError msg), w)
  | None => (Ok tt, emit ev w)
  end.

Definition VideoFileClip (lib : library) (path : string) : M clip :=
  lib_call lib CallVideoFileClip (Opened path);;
  modify (λ w, set_readers (S (open_readers w)) w);;
  mret (Clip (source_duration lib) (source_w lib) (source_h lib)).

Definition subclipped (lib : library) (c : clip) (t0 : Q) (t1 : option Q) : M clip :=
  lib_call lib CallSubclipped (Subclipped t0 t1);;
  mret (Clip (match t1 with Some t => t - t0 | None => duration_of c - t0 end)%Q
             (w_of c) (h_of c)).

Definition with_speed_scaled (lib : library) (c : clip) (factor : Q) : M clip :=
  lib_call lib CallWithSpeedScaled (SpeedScaled factor);;
  mret (Clip (duration_of c / factor)%Q (w_of c) (h_of c)).

Definition resized (lib : library) (c : clip) (new_size : Z * Z) : M clip :=
  lib_call lib CallResized (Resized (fst new_size) (snd new_size));;
  mret (Clip (duration_of c) (fst new_size) (snd new_size)).

Definition with_fps (lib : library) (c : clip) (fps : Z) : M clip :=
  lib_call lib CallWithFps (WithFps fps);;
  mret c.

Definition write_gif (lib : library) (output_path : string) (fps loops : Z) : M unit :=
  lib_call lib CallWriteGif (WroteGif output_path fps loops);;
  if produces_output lib
  then modify (λ w, set_files ({[output_path]} ∪ files w) w)
  else mret tt.

(** [clip.close()] releases the reader of the source. *)
Definition close : M unit :=
  modify (λ w, set_readers (Nat.pred (open_readers w)) (emit Closed w)).

(** [Path(p).exists()] / [os.path.exists(p)] *)
Definition path_exists (p : string) : M bool :=
  w ← get_world; mret (bool_decide (p ∈ files w)).

(** [os.unlink(p)]: it removes the file, or raises [OSError] when the
    environment says so. *)
Definition unlink (lib : library) (p : string) : M unit := λ w,
  match fault lib CallUnlink with
  | Some msg => (Raise (OSError msg), w)
  | None => (Ok tt, set_files (files w ∖ {[p]}) w)
  end.

(** [except OSError: pass] *)
Definition pass_OSError (e : exn) : M unit :=
  match e with
  | OSError _ => mret tt
  | _ => raise e
  end.

(** video_to_gif.py lines 34-39: the callback is skipped when it is [None],
    and whatever it raises is swallowed. *)
Definition safe_progress (progress_callback : option (Z → M unit)) (percent : Z) : M unit :=
  match progress_callback with
  | Some cb => try_except (modify (emit (Progress percent));; cb percent) (λ _, mret tt)
  | None => mret tt
  end.

(** video_to_gif.py lines 52-62, the value of the local [duration] once the
    window has been fitted to the source. *)
Definition clipped_duration (start_time : Q) (duration : option Q) (clip_duration : Q)
  : option Q :=
  if Qgt_bool start_time 0 then
    match duration with
    | Some d =>
        Some (if Qgt_bool (py_add start_time d) clip_duration
              then py_sub clip_duration start_time else d)
    | None => None
    end
  else
    match duration with
    | Some d => Some (if Qgt_bool d clip_duration then clip_duration else d)
    | None => None
    end.

(** video_to_gif.py lines 52-62, the arguments of the [subclipped] call
    ([None] when no call is made). *)
Definition subclip_window (start_time : Q) (duration : option Q) (clip_duration : Q)
  : option (Q * option Q) :=
  if Qgt_bool start_time 0 then
    match clipped_duration start_time duration clip_duration with
    | Some d => Some (start_time, Some (py_add start_time d))
    | None => Some (start_time, None)
    end
  else
    match clipped_duration start_time duration clip_duration with
    | Some d => Some (0%Q, Some d)
    | None => None
    end.

Definition apply_window (lib : library) (c : clip) (start_time : Q) (duration : option Q)
  : M clip :=
  match subclip_window start_time duration (duration_of c) with
  | Some (t0, t1) => subclipped lib c t0 t1
  | None => mret c
  end.

(** video_to_gif.py lines 67-72 *)
Definition apply_speed (lib : library) (c : clip) (speed : Q) : M clip :=
  if negb (Qeq_bool speed 1) then
    if Qgt_bool speed 0 then with_speed_scaled lib c speed
    else mret c                       (* warning printed, speed = 1.0 *)
  else mret c.

(** [int(n * scale)] for an [int] [n] and a float [scale]: the product is
    rounded, then truncated. *)
Definition scaled (n : Z) (scale : Q) : Z := py_int (py_mul (inject_Z n) scale).

(** video_to_gif.py line 78: the two conversions [int(...)] raise when the
    environment says so (on a product that is NaN or infinite). *)
Definition new_size (lib : library) (c : clip) (scale : Q) : M (Z * Z) := λ w,
  match fault lib CallInt with
  | Some msg => (Raise (LibraryError msg), w)
  | None => (Ok (scaled (w_of c) scale, scaled (h_of c) scale), w)
  end.

(** video_to_gif.py lines 77-79 *)
Definition apply_scale (lib : library) (c : clip) (scale : Q) : M clip :=
  if negb (Qeq_bool scale 1) then
    size ← new_size lib c scale;
    resized lib c size
  else mret c.

(** video_to_gif.py lines 88-104 *)
Definition write_and_verify (lib : library) (cb : option (Z → M unit))
    (output_path : string) (fps loops : Z) : M bool :=
  try_finally
    (try_except
       (write_gif lib output_path fps loops;;
        created ← path_exists output_path;
        if created : bool
        then safe_progress cb 100;; mret true
        else safe_progress cb (-1);; mret false)
       (λ _, safe_progress cb (-1);; mret false))
    close.

(** video_to_gif.py, [convert_video_to_gif_web] *)
Definition convert_video_to_gif_web (lib : library) (input_path output_path : string)
    (fps : Z) (scale start_time : Q) (duration : option Q) (loops : Z) (speed : Q)
    (progress_callback : option (Z → M unit)) : M bool :=
  safe_progress progress_callback 5;;
  try_except
    (c ← VideoFileClip lib input_path; mret (Some c))
    (λ _, mret None) ≫= λ opened,
  match opened with
  | None => safe_progress progress_callback (-1);; mret false
  | Some c =>
      safe_progress progress_callback 20;;
      c ← apply_window lib c start_time duration;
      safe_progress progress_callback 40;;
      c ← apply_speed lib c speed;
      safe_progress progress_callback 50;;
      c ← apply_scale lib c scale;
      safe_progress progress_callback 70;;
      c ← with_fps lib c fps;
      safe_progress progress_callback 80;;
      write_and_verify lib progress_callback output_path fps loops
  end.

(** ** The job runner and the retrieval endpoint (app.py) *)

(** The [params] dictionary built by [convert] (app.py lines 175-182): all
    six keys are always present, so the defaults of [params.get] are never
    taken. *)
Record params : Type := Params {
  p_fps : Z;
  p_scale : Q;
  p_start_time : Q;
  p_duration : option Q;
  p_loops : Z;
  p_speed : Q
}.

Definition processing_entry : gmap string pyval :=
  {[ "status" := VStr "processing"; "progress" := VInt 0 ]}.

(** app.py, [background_convert]. The thread body is modelled run to its
    end without interleaving of other threads. *)
Definition background_convert (lib : library) (input_path output_path : string)
    (ps : params) (job_id : string) : M unit :=
  try_finally
    (try_except
       (tasks_setitem job_id processing_entry;;
        success ← convert_video_to_gif_web lib input_path output_path
                    (p_fps ps) (p_scale ps) (p_start_time ps) (p_duration ps)
                    (p_loops ps) (p_speed ps)
                    (Some (λ p, update_progress job_id p));
        if success : bool
        then complete job_id
        else fail_job job_id "Conversion failed")
       (λ e, fail_job job_id (str_of_exn e)))
    (try_except
       (present ← path_exists input_path;
        if present : bool then unlink lib input_path else mret tt)
       pass_OSError).

(** What a request handler hands back: a status code with a text body, or
    the file sent as an attachment (status 200). *)
Inductive response : Type :=
| Text (body : string) (code : Z)
| SendFile (path : string).

(** [os.path.join(tempfile.gettempdir(), name)] for a relative [name]. *)
Definition path_join (dir name : string) : string := dir +:+ "/" +:+ name.

(** app.py, [download]. [tmp] is [tempfile.gettempdir()]. *)
Definition download (tmp job_id : string) : M response :=
  w ← get_world;
  match conversion_tasks w !! job_id with
  | None => mret (Text "Job not found" 404)
  | Some task =>
      if bool_decide (task !! "status" ≠ Some (VStr "completed"))
      then mret (Text "Conversion not completed or failed" 400)
      else
        match task !! "output_filename" with
        | None => raise (KeyError "output_filename")
        | Some (VInt _) => raise (TypeError "expected str, bytes or os.PathLike object, not int")
        | Some (VStr name) =>
            let output_path := path_join tmp name in
            present ← path_exists output_path;
            if present : bool then
              (* send_file(output_path, ...) ; del conversion_tasks[job_id] *)
              modify (λ w, set_tasks (delete job_id (conversion_tasks w)) w);;
              mret (SendFile output_path)
            else mret (Text "Output file not found" 404)
        end
  end.

(** ** The credential gate and the filename check (app.py) *)

Inductive gate (A : Type) : Type :=
| Rejected (error : string) (code : Z)
| Passed (r : A).
Arguments Rejected {A} error code.
Arguments Passed {A} r.

(** Truthiness of [d.get(k)] for a string-valued mapping: [None] and the
    empty string are falsy. *)
Definition truthy (v : option string) : bool :=
  match v with
  | Some s => negb (String.eqb s "")
  | None => false
  end.

(** Python's [a or b] *)
Definition py_or (a b : option string) : option string := if truthy a then a else b.

Section Gate.

(** The configured key (app.py lines 48-54). *)
Variable API_KEY : string.

(** app.py, [require_api_key]: [header] is
    [request.headers.get('X-API-Key')], [form] is
    [request.form.get('api_key')], [f] the outcome of the wrapped view. *)
Definition require_api_key {A} (f : A) (header form : option string) : gate A :=
  let api_key := py_or header form in
  if negb (truthy api_key) then Rejected "API key required for conversion" 401
  else if negb (bool_decide (api_key = Some API_KEY)) then Rejected "Invalid API key" 403
  else Passed f.

End Gate.

Definition ALLOWED_EXTENSIONS : gset string := {[ "mp4"; "avi"; "mov"; "mkv"; "webm" ]}.

Definition is_dot (c : ascii) : bool := Ascii.eqb c ".".

(** ['.' in filename] *)
Fixpoint has_dot (s : string) : bool :=
  match s with
  | EmptyString => false
  | String c rest => is_dot c || has_dot rest
  end.

(** The split at the last dot, if there is a dot. *)
Fixpoint rsplit_last_dot (s : string) : option (string * string) :=
  match s with
  | EmptyString => None
  | String c rest =>
      match rsplit_last_dot rest with
      | Some (before, after) => Some (String c before, after)
      | None => if is_dot c then Some (EmptyString, rest) else None
      end
  end.

(** [s.rsplit('.', 1)] *)
Definition rsplit1 (s : string) : list string :=
  match rsplit_last_dot s with
  | Some (before, after) => [before; after]
  | None => [s]
  end.

(** What [str.lower] does on text that is ASCII throughout: the letters
    [A] to [Z] become [a] to [z], every other character stays. *)
Definition lower_ascii (c : ascii) : ascii :=
  let n := nat_of_ascii c in
  if (65 <=? n)%nat && (n <=? 90)%nat then ascii_of_nat (n + 32) else c.

Fixpoint ascii_lower (s : string) : string :=
  match s with
  | EmptyString => EmptyString
  | String c rest => String (lower_ascii c) (ascii_lower rest)
  end.

(** Text whose UTF-8 bytes are all below 128. *)
Fixpoint ascii_text (s : string) : bool :=
  match s with
  | EmptyString => true
  | String c rest => (nat_of_ascii c <? 128)%nat && ascii_text rest
  end.

Section Filename.

(** Python's [str.lower], on the UTF-8 encoding of the text. It is
    Unicode-aware: the Kelvin sign U+212A, for one, becomes [k]. *)
Variable lower : string → string.

(** app.py, [allowed_file]. The subscript [[1]] is only evaluated when the
    left operand of [and] is true. *)
Definition allowed_file (filename : string) : bool :=
  has_dot filename &&
  match rsplit1 filename !! 1%nat with
  | Some ext => bool_decide (lower ext ∈ ALLOWED_EXTENSIONS)
  | None => false                         (* IndexError; not reached *)
  end.

End Filename.

(** The wording of the filename rule: the segments between dots, and the
    last of them. *)
Fixpoint dot_segments (s : string) : list string :=
  match s with
  | EmptyString => [EmptyString]
  | String c rest =>
      if is_dot c then EmptyString :: dot_segments rest
      else match dot_segments rest with
           | seg :: segs => String c seg :: segs
           | [] => [String c EmptyString]
           end
  end.

Definition final_segment (s : string) : string := List.last (dot_segments s) EmptyString.

(** ** Notions used in the statements *)

(** The percentages handed to the progress callback, in order. *)
Definition progress_values (t : list event) : list Z :=
  omap (λ e, match e with Progress p => Some p | _ => None end) t.

(** A credential that is absent or the empty string. *)
Definition blank (v : option string) : Prop := v = None ∨ v = Some "".

(** One call of the runner's progress hook: the value is recorded and
    stored in the job's entry when the job is registered. *)
Definition report (job_id : string) (percent : Z) (w : world) : world :=
  snd (update_progress job_id percent (emit (Progress percent) w)).

(** The world after [clip.close()]. *)
Definition close_world (w : world) : world :=
  set_readers (Nat.pred (open_readers w)) (emit Closed w).

(** How many times [clip.close()] was called. *)
Definition closes (t : list event) : nat :=
  length (omap (λ e, match e with Closed => Some tt | _ => None end) t).

(** A step that leaves registry, files and readers alone and neither
    reports progress nor closes the clip. *)
Definition silent (w w' : world) : Prop :=
  conversion_tasks w' = conversion_tasks w ∧ files w' = files w ∧
  open_readers w' = open_readers w ∧
  progress_values (trace w') = progress_values (trace w) ∧
  closes (trace w') = closes (trace w).

(** The events that record a call into the library other than [close]. *)
Definition library_event (ev : event) : Prop :=
  match ev with
  | Progress _ | Closed => False
  | _ => True
  end.

(** A transformation of the clip through library call [c]: it returns
    silently, or it raises the fault of [c] before anything has changed. *)
Definition transform_step {A} (lib : library) (c : call) (m : M A) : Prop :=
  ∀ w, match m w with
       | (Ok _, w') => silent w w'
       | (Raise e, w') => w' = w ∧ ∃ msg, fault lib c = Some msg ∧ e = LibraryError msg
       end.

(** The ways the adapter can exit, with what has been reported to the
    callback, what has become of the source reader and of the files. In
    every case the progress values reported so far are those of the world
    the run started in followed by the ones listed. *)
Inductive adapter_exit (lib : library) (out : string) (w : world)
  : result bool → world → Prop :=
| exit_success w' :
    fault lib CallVideoFileClip = None → fault lib CallWriteGif = None →
    progress_values (trace w') = progress_values (trace w) ++ [5; 20; 40; 50; 70; 80; 100] →
    open_readers w' = open_readers w →
    closes (trace w') = S (closes (trace w)) →
    files w' = (if produces_output lib then {[out]} ∪ files w else files w) →
    out ∈ files w' →
    adapter_exit lib out w (Ok true) w'
| exit_unreadable msg w' :
    fault lib CallVideoFileClip = Some msg →
    progress_values (trace w') = progress_values (trace w) ++ [5; -1] →
    open_readers w' = open_readers w →
    closes (trace w') = closes (trace w) →
    files w' = files w →
    adapter_exit lib out w (Ok false) w'
| exit_write_fault msg w' :
    fault lib CallVideoFileClip = None → fault lib CallWriteGif = Some msg →
    progress_values (trace w') = progress_values (trace w) ++ [5; 20; 40; 50; 70; 80; -1] →
    open_readers w' = open_readers w →
    closes (trace w') = S (closes (trace w)) →
    files w' = files w →
    adapter_exit lib out w (Ok false) w'
| exit_output_missing w' :
    fault lib CallVideoFileClip = None → fault lib CallWriteGif = None →
    produces_output lib = false → out ∉ files w →
    progress_values (trace w') = progress_values (trace w) ++ [5; 20; 40; 50; 70; 80; -1] →
    open_readers w' = open_readers w →
    closes (trace w') = S (closes (trace w)) →
    files w' = files w →
    adapter_exit lib out w (Ok false) w'
| exit_transform_fault c reported msg w' :
    fault lib CallVideoFileClip = None →
    (c, reported) ∈ [ (CallSubclipped, [5; 20]); (CallWithSpeedScaled, [5; 20; 40]);
                      (CallInt, [5; 20; 40; 50]); (CallResized, [5; 20; 40; 50]);
                      (CallWithFps, [5; 20; 40; 50; 70]) ] →
    fault lib c = Some msg →
    progress_values (trace w') = progress_values (trace w) ++ reported →
    open_readers w' = S (open_readers w) →
    closes (trace w') = closes (trace w) →
    files w' = files w →
    adapter_exit lib out w (Raise (LibraryError msg)) w'.

(** The fields the runner writes once the adapter has exited. *)
Definition verdict (r : result bool) : gmap string pyval :=
  match r with
  | Ok true => completed_fields
  | Ok false => failed_fields "Conversion failed"
  | Raise e => failed_fields (str_of_exn e)
  end.

(** The [finally] block of [background_convert]: the input file is
    removed if it is there and [os.unlink] does not fail. *)
Definition cleanup (lib : library) (input_path : string) (w : world) : world :=
  if bool_decide (input_path ∈ files w)
  then match fault lib CallUnlink with
       | Some _ => w
       | None => set_files (files w ∖ {[input_path]}) w
       end
  else w.

(** ** Sample worlds and libraries *)

(** Nothing registered, no file, no reader. *)
Definition empty_world : world := World ∅ ∅ 0 [].

(** The form defaults: fps 10, scale 0.5, start 0.0, no duration, loops 0,
    speed 1.0. *)
Definition default_params : params := Params 10 (1#2) 0 None 0 1.

(** The entry of a job that has completed. *)
Definition completed_entry : gmap string pyval :=
  {[ "status" := VStr "completed"; "progress" := VInt 100;
     "output_filename" := VStr "flask_gif_output_j1.gif" ]}.

(** A world in which job [j1] is completed and its GIF is in [/tmp]. *)
Definition finished_world : world :=
  World {[ "j1" := completed_entry ]} {[ "/tmp/flask_gif_output_j1.gif" ]} 0 [].

(** A world in which job [j1] has just been submitted. *)
Definition submitted_world : world :=
  World {[ "j1" := processing_entry ]} {[ "/tmp/flask_gif_input_j1_in.mp4" ]} 0 [].

(** The transformations of the clip (lines 51-84) run outside any [try]
    block. A source of 10 seconds asked to start at second 20: moviepy's
    [subclipped] refuses a start past the end of the clip. *)
Definition start_past_end : library :=
  Library 10 640 360
    (λ c, if decide (c = CallSubclipped)
          then Some "start_time (20.00) should be smaller than the clip's duration (10.00)."
          else None)
    true.

(** The adapter run on that source with [start_time = 20.0], no duration,
    and the runner's callback. *)
Definition run_start_past_end : result bool * world :=
  convert_video_to_gif_web start_past_end
    "/tmp/flask_gif_input_j1_in.mp4" "/tmp/flask_gif_output_j1.gif"
    10 (1#2) 20 None 0 1 (Some (update_progress "j1")) submitted_world.

(** A conversion in which every library call returns but [write_gif]
    leaves no file behind. *)
Definition no_output : library := Library 10 640 360 (λ _, None) false.

(** A source that cannot be opened. *)
Definition unreadable : library :=
  Library 10 640 360
    (λ c, if decide (c = CallVideoFileClip) then Some "could not open the file" else None)
    true.

(** The world after the runner has run against [lib] for job [j1], and the
    entry of the job in it. *)
Definition world_after (lib : library) : world :=
  snd (background_convert lib "/tmp/flask_gif_input_j1_in.mp4"
         "/tmp/flask_gif_output_j1.gif" default_params "j1" submitted_world).

Definition job_after (lib : library) : option (gmap string pyval) :=
  conversion_tasks (world_after lib) !! "j1".

(** ** The remaining endpoints, the configuration and the sweep (app.py) *)

(** app.py, [progress]: the JSON body and the status code. *)
Definition progress (job_id : string) : M (gmap string pyval * Z) :=
  w ← get_world;
  match conversion_tasks w !! job_id with
  | Some task => mret (task, 200)
  | None => mret ({[ "error" := VStr "Job not found" ]}, 404)
  end.

(** app.py lines 48-54: the key the application starts with, from the
    environment variables [GIF_API_KEY] and [FLASK_ENV]; [None] when the
    module raises [ValueError] at import. *)
Definition configure_api_key (GIF_API_KEY FLASK_ENV : option string) : option string :=
  if negb (truthy GIF_API_KEY) && bool_decide (FLASK_ENV = Some "production") then None
  else if negb (truthy GIF_API_KEY) then Some "development-api-key-change-in-production"
  else GIF_API_KEY.

(** [temp_dir.glob("flask_gif_*")] on a file name of the directory. *)
Definition glob_flask_gif (name : string) : bool := String.prefix "flask_gif_" name.

(** app.py, [cleanup_old_files], on the temporary directory as a map from
    file name to modification time. [locked] are the names on which
    [unlink] raises [OSError]; the handler passes over them. *)
Definition sweep_one (locked : gset string) (current_time : Q)
    (entry : string * Q) (dir : gmap string Q) : gmap string Q :=
  if glob_flask_gif entry.1 then
    if Qgt_bool (current_time - 3600) entry.2 then
      if bool_decide (entry.1 ∈ locked) then dir else delete entry.1 dir
    else dir
  else dir.

Definition cleanup_old_files (locked : gset string) (current_time : Q)
    (temp_dir : gmap string Q) : gmap string Q :=
  foldr (sweep_one locked current_time) temp_dir (map_to_list temp_dir).

(** ** Submission (app.py, [convert]) *)

(** What [convert] reads of the request: the [X-API-Key] header, the form
    fields, and the file name of the upload under ['video'] if there is
    one. *)
Record request : Type := Request {
  req_header_key : option string;
  req_form : gmap string string;
  req_video : option string
}.

(** The arguments of the thread [convert] starts. *)
Record spawn : Type := Spawn {
  t_input : string;
  t_output : string;
  t_params : params;
  t_job_id : string
}.

Inductive submitted : Type :=
| Redirected (flashed : string)          (* flash(msg); redirect(url_for('index')) *)
| UncaughtValueError                     (* int() or float() refused a form field *)
| Accepted (job_id : string) (thread : spawn).

(** The entry stored at app.py line 190. *)
Definition submitted_entry (output_filename : string) : gmap string pyval :=
  {[ "status" := VStr "processing"; "progress" := VInt 0;
     "output_filename" := VStr output_filename ]}.

Definition input_name (job_id filename : string) : string :=
  "flask_gif_input_" +:+ job_id +:+ "_" +:+ filename.

Definition output_name (job_id : string) : string :=
  "flask_gif_output_" +:+ job_id +:+ ".gif".

Section Submit.

(** Python's [str.lower], [int] and [float] on a string ([None]:
    [ValueError]) and werkzeug's [secure_filename]. *)
Variable lower : string → string.
Variable parse_int : string → option Z.
Variable parse_float : string → option Q.
Variable secure_filename : string → string.

(** [int(request.form.get(key, default))] *)
Definition form_int (form : gmap string string) (key : string) (default : Z) : option Z :=
  match form !! key with
  | Some s => parse_int s
  | None => Some default
  end.

(** [float(request.form.get(key, default))] *)
Definition form_float (form : gmap string string) (key : string) (default : Q) : option Q :=
  match form !! key with
  | Some s => parse_float s
  | None => Some default
  end.

(** [float(request.form.get('duration', '')) if request.form.get('duration') else None] *)
Definition form_duration (form : gmap string string) : option (option Q) :=
  if truthy (form !! "duration") then
    match form !! "duration" with
    | Some s => Some <$> parse_float s
    | None => Some None
    end
  else Some None.

(** app.py lines 175-182; [None] when a conversion raises [ValueError]. *)
Definition read_params (form : gmap string string) : option params :=
  fps ← form_int form "fps" 10;
  scale ← form_float form "scale" (1#2);
  start_time ← form_float form "start_time" 0;
  duration ← form_duration form;
  loops ← form_int form "loops" 0;
  speed ← form_float form "speed" 1;
  Some (Params fps scale start_time duration loops speed).

(** app.py, [convert], below its decorator. [tmp] is
    [tempfile.gettempdir()] and [job_id] the value of [str(uuid.uuid4())].
    A [FileStorage] is falsy exactly when its file name is empty. The
    thread is started but has not yet run a statement when the handler
    returns; its body is [background_convert] on the arguments handed
    back. *)
Definition convert (tmp job_id : string) (req : request) : M submitted :=
  match req_video req with
  | None => mret (Redirected "No video file provided")
  | Some filename =>
      if String.eqb filename "" then mret (Redirected "No video selected")
      else if String.eqb filename "" || negb (allowed_file lower filename)
      then mret (Redirected "Invalid file type. Please upload MP4, AVI, MOV, MKV, or WebM.")
      else
        let temp_input := path_join tmp (input_name job_id (secure_filename filename)) in
        modify (λ w, set_files ({[temp_input]} ∪ files w) w);;
        let output_filename := output_name job_id in
        let temp_output := path_join tmp output_filename in
        match read_params (req_form req) with
        | None => mret UncaughtValueError
        | Some ps =>
            tasks_setitem job_id (submitted_entry output_filename);;
            mret (Accepted job_id (Spawn temp_input temp_output ps job_id))
        end
  end.

(** [convert] behind [@require_api_key]: the view runs only when the gate
    lets the request through. *)
Definition convert_route (API_KEY tmp job_id : string) (req : request)
  : world → gate (result submitted) * world := λ w,
  match require_api_key API_KEY tt (req_header_key req) (req_form req !! "api_key") with
  | Rejected error code => (Rejected error code, w)
  | Passed _ => let '(r, w') := convert tmp job_id req w in (Passed r, w')
  end.

End Submit.

(** [background_convert] with one step of another thread, [other], taken
    between its first statement (line 103) and the call of the adapter
    (line 106). *)
Definition background_convert_at (other : world → world) (lib : library)
    (input_path output_path : string) (ps : params) (job_id : string) : M unit :=
  try_finally
    (try_except
       (tasks_setitem job_id processing_entry;;
        modify other;;
        success ← convert_video_to_gif_web lib input_path output_path
                    (p_fps ps) (p_scale ps) (p_start_time ps) (p_duration ps)
                    (p_loops ps) (p_speed ps)
                    (Some (λ p, update_progress job_id p));
        if success : bool
        then complete job_id
        else fail_job job_id "Conversion failed")
       (λ e, fail_job job_id (str_of_exn e)))
    (try_except
       (present ← path_exists input_path;
        if present : bool then unlink lib input_path else mret tt)
       pass_OSError).


(** The test [cleanup_old_files] applies to one directory entry: the name
    matches the pattern, the file is more than an hour old, and [unlink]
    does not fail on it. *)
Definition swept (locked : gset string) (current_time : Q) (name : string) (mtime : Q) : bool :=
  glob_flask_gif name && Qgt_bool (current_time - 3600) mtime
  && negb (bool_decide (name ∈ locked)).

(** The value stored under [key] in the entry of job [job_id], if any. *)
Definition job_field (t : gmap string (gmap string pyval)) (job_id key : string)
  : option pyval :=
  t !! job_id ≫= λ task, task !! key.

(** Two registries that differ at most in the ['progress'] of job
    [job_id]. *)
Definition registry_frame (job_id : string) (t t' : gmap string (gmap string pyval)) : Prop :=
  (∀ other, other ≠ job_id → t' !! other = t !! other) ∧
  (∀ key, key ≠ "progress" → job_field t' job_id key = job_field t job_id key).


(** The library calls a conversion makes between opening the source and
    setting the frame rate, by the parameters. *)
Definition window_events (start_time : Q) (duration : option Q) (clip_duration : Q)
  : list event :=
  match subclip_window start_time duration clip_duration with
  | Some (t0, t1) => [Subclipped t0 t1]
  | None => []
  end.

Definition speed_events (speed : Q) : list event :=
  if negb (Qeq_bool speed 1) && Qgt_bool speed 0 then [SpeedScaled speed] else [].

Definition scale_events (scale : Q) (w h : Z) : list event :=
  if negb (Qeq_bool scale 1)
  then [Resized (scaled w scale) (scaled h scale)]
  else [].

(** * Properties *)

(** ** Unfolding the monad *)

Ltac unfold_M :=
  unfold mbind, M_bind, mret, M_ret, try_except, try_finally, modify, get_world, raise.

(** ** The registry *)

Lemma update_progress_present (w : world) (job_id : string) (task : gmap string pyval)
    (percent : Z) :
  conversion_tasks w !! job_id = Some task →
  update_progress job_id percent w =
    (Ok tt, set_tasks (<[job_id := <["progress" := VInt percent]> task]> (conversion_tasks w)) w).
Proof. intros H. unfold update_progress. by rewrite H. Qed.

Lemma update_progress_absent (w : world) (job_id : string) (percent : Z) :
  conversion_tasks w !! job_id = None → update_progress job_id percent w = (Ok tt, w).
Proof. intros H. unfold update_progress. by rewrite H. Qed.

(** C8: for a job id present in the registry, [update_progress] returns
    normally and rewrites the ['progress'] key of that job's entry only:
    every other key of the entry (['status'], ['error'],
    ['output_filename'], ...) reads as before, every other job's entry is
    untouched, and so are the files, the readers and the trace. *)
Theorem update_progress_only_progress
    (w : world) (job_id : string) (task : gmap string pyval) (percent : Z) :
  conversion_tasks w !! job_id = Some task →
  ∃ task' w',
    update_progress job_id percent w = (Ok tt, w') ∧
    conversion_tasks w' !! job_id = Some task' ∧
    task' !! "progress" = Some (VInt percent) ∧
    task' !! "status" = task !! "status" ∧
    task' !! "error" = task !! "error" ∧
    task' !! "output_filename" = task !! "output_filename" ∧
    (∀ key, key ≠ "progress" → task' !! key = task !! key) ∧
    (∀ other, other ≠ job_id → conversion_tasks w' !! other = conversion_tasks w !! other) ∧
    files w' = files w ∧ open_readers w' = open_readers w ∧ trace w' = trace w.
Proof.
  intros Hin. eexists _, _. split; [by apply update_progress_present|].
  cbn. rewrite lookup_insert_eq.
  assert (Hframe : ∀ key, key ≠ "progress" →
            <["progress" := VInt percent]> task !! key = task !! key)
    by (intros key Hkey; by rewrite lookup_insert_ne).
  split; [reflexivity|]. split; [apply lookup_insert_eq|].
  do 3 (split; [by apply Hframe|]).
  split; [exact Hframe|].
  split; [|done].
  intros other Hother. by rewrite lookup_insert_ne.
Qed.

Lemma update_progress_only_progress_witness :
  ∃ task' w',
    update_progress "j1" 40 finished_world = (Ok tt, w') ∧
    conversion_tasks w' !! "j1" = Some task' ∧
    task' !! "progress" = Some (VInt 40) ∧
    task' !! "status" = completed_entry !! "status" ∧
    task' !! "error" = completed_entry !! "error" ∧
    task' !! "output_filename" = completed_entry !! "output_filename" ∧
    (∀ key, key ≠ "progress" → task' !! key = completed_entry !! key) ∧
    (∀ other, other ≠ "j1" →
       conversion_tasks w' !! other = conversion_tasks finished_world !! other) ∧
    files w' = files finished_world ∧ open_readers w' = open_readers finished_world ∧
    trace w' = trace finished_world.
Proof.
  apply (update_progress_only_progress finished_world "j1" completed_entry 40).
  reflexivity.
Defined.

(** C2, as stated, fails: on a completed job whose progress is 100,
    [update_progress] with 5 leaves the status alone but stores 5. *)
Lemma update_progress_after_complete_overwrites :
  conversion_tasks finished_world !! "j1" = Some completed_entry ∧
  status_of completed_entry = Some (VStr "completed") ∧
  progress_of completed_entry = Some (VInt 100) ∧
  ∃ task', conversion_tasks (snd (update_progress "j1" 5 finished_world)) !! "j1" = Some task' ∧
           progress_of task' = Some (VInt 5) ∧
           task' ≠ completed_entry.
Proof.
  repeat split; try reflexivity.
  exists (<["progress" := VInt 5]> completed_entry).
  repeat split; try reflexivity.
  intros Heq. apply (f_equal progress_of) in Heq. vm_compute in Heq. discriminate.
Qed.

(** C2, amended: on an entry whose status is Completed, [update_progress]
    keeps the status Completed and every key other than ['progress'], and
    sets ['progress'] to the value it is given. *)
Theorem update_progress_keeps_completed
    (w : world) (job_id : string) (task : gmap string pyval) (percent : Z) :
  conversion_tasks w !! job_id = Some task →
  status_of task = Some (VStr "completed") →
  ∃ task',
    conversion_tasks (snd (update_progress job_id percent w)) !! job_id = Some task' ∧
    status_of task' = Some (VStr "completed") ∧
    progress_of task' = Some (VInt percent) ∧
    ∀ key, key ≠ "progress" → task' !! key = task !! key.
Proof.
  intros Hin Hst. rewrite (update_progress_present _ _ _ _ Hin). cbn.
  rewrite lookup_insert_eq. eexists. split; [reflexivity|].
  unfold status_of, progress_of. rewrite lookup_insert_eq, lookup_insert_ne by done.
  repeat split; try done.
  intros key Hkey. by rewrite lookup_insert_ne.
Qed.

Lemma update_progress_keeps_completed_witness :
  ∃ task',
    conversion_tasks (snd (update_progress "j1" 5 finished_world)) !! "j1" = Some task' ∧
    status_of task' = Some (VStr "completed") ∧
    progress_of task' = Some (VInt 5) ∧
    ∀ key, key ≠ "progress" → task' !! key = completed_entry !! key.
Proof.
  apply (update_progress_keeps_completed finished_world "j1" completed_entry 5);
    reflexivity.
Defined.

(** C4, as stated, fails: on a registry without the job id the statement
    that marks a job Completed raises [KeyError]. *)
Lemma complete_missing_raises :
  conversion_tasks empty_world !! "j1" = None ∧
  complete "j1" empty_world = (Raise (KeyError "j1"), empty_world).
Proof. split; reflexivity. Qed.

(** C4, amended: the Completed update is not guarded. For a job id absent
    from the registry it raises [KeyError] for that id and leaves the world,
    the registry included, unchanged; for a job id that is present it
    returns normally with status Completed and progress 100. *)
Theorem complete_unguarded (w : world) (job_id : string) :
  (conversion_tasks w !! job_id = None →
     complete job_id w = (Raise (KeyError job_id), w)) ∧
  (∀ task, conversion_tasks w !! job_id = Some task →
     ∃ task' w', complete job_id w = (Ok tt, w') ∧
       conversion_tasks w' !! job_id = Some task' ∧
       status_of task' = Some (VStr "completed") ∧
       progress_of task' = Some (VInt 100)).
Proof.
  unfold complete, tasks_update. split.
  - intros ->. reflexivity.
  - intros task ->. eexists _, _. split; [reflexivity|]. cbn.
    rewrite lookup_insert_eq. split; [reflexivity|].
    unfold status_of, progress_of, dict_update, completed_fields.
    split; apply lookup_union_Some_l; reflexivity.
Qed.

Lemma complete_unguarded_witness :
  complete "j2" finished_world = (Raise (KeyError "j2"), finished_world) ∧
  ∃ task' w', complete "j1" finished_world = (Ok tt, w') ∧
    conversion_tasks w' !! "j1" = Some task' ∧
    status_of task' = Some (VStr "completed") ∧
    progress_of task' = Some (VInt 100).
Proof.
  destruct (complete_unguarded finished_world "j2") as [Habsent _].
  destruct (complete_unguarded finished_world "j1") as [_ Hpresent].
  split; [apply Habsent; reflexivity | apply (Hpresent completed_entry); reflexivity].
Defined.

(** ** Retrieval *)

(** The only way [download] answers with the file: the job is registered
    as completed, names its output, and the output is in the temporary
    directory; the world it leaves differs from the one it met by the
    deleted registry key alone. *)
Lemma download_sends_inv (tmp job_id path : string) (w w' : world) :
  download tmp job_id w = (Ok (SendFile path), w') →
  ∃ task name,
    conversion_tasks w !! job_id = Some task ∧
    status_of task = Some (VStr "completed") ∧
    task !! "output_filename" = Some (VStr name) ∧
    path = path_join tmp name ∧
    path ∈ files w ∧
    w' = set_tasks (delete job_id (conversion_tasks w)) w.
Proof.
  unfold download, path_exists. unfold_M. cbn.
  destruct (conversion_tasks w !! job_id) as [task|] eqn:Hin; [|discriminate].
  case_bool_decide as Hst; [discriminate|].
  destruct (task !! "output_filename") as [[name|z]|] eqn:Hname; try discriminate.
  case_bool_decide as Hfile; [|discriminate].
  intros [= <- <-]. by exists task, name.
Qed.

Lemma download_unknown (tmp job_id : string) (w : world) :
  conversion_tasks w !! job_id = None →
  download tmp job_id w = (Ok (Text "Job not found" 404), w).
Proof. intros H. unfold download. unfold_M. cbn. by rewrite H. Qed.

(** C1, as stated, fails: after the download of completed job [j1] has
    sent the file, the registry entry is gone but the GIF is still in the
    temporary directory. *)
Lemma download_leaves_output_file :
  ∃ w', download "/tmp" "j1" finished_world
          = (Ok (SendFile "/tmp/flask_gif_output_j1.gif"), w') ∧
        conversion_tasks w' !! "j1" = None ∧
        "/tmp/flask_gif_output_j1.gif" ∈ files w'.
Proof.
  eexists. split; [vm_compute; reflexivity|].
  split; [reflexivity|]. cbn. set_solver.
Qed.

(** C1, amended: when [download] sends the file of a job, the job's
    registry entry is removed, so a second [download] of the same id
    answers 404 'Job not found'; the set of files is left as it was, the
    sent output file included (the handler deletes no file). *)
Theorem download_removes_entry_keeps_file (tmp job_id path : string) (w w' : world) :
  download tmp job_id w = (Ok (SendFile path), w') →
  conversion_tasks w' !! job_id = None ∧
  (∀ other, other ≠ job_id → conversion_tasks w' !! other = conversion_tasks w !! other) ∧
  download tmp job_id w' = (Ok (Text "Job not found" 404), w') ∧
  files w' = files w ∧
  path ∈ files w'.
Proof.
  intros Hdl.
  destruct (download_sends_inv _ _ _ _ _ Hdl) as (task & name & Hin & Hst & Hname & -> & Hfile & ->).
  cbn. assert (Hgone : delete job_id (conversion_tasks w) !! job_id = None)
    by apply lookup_delete_eq.
  split; [exact Hgone|]. split; [intros other Ho; by apply lookup_delete_ne|].
  split; [by apply download_unknown|]. done.
Qed.

Lemma download_removes_entry_keeps_file_witness :
  let w' := snd (download "/tmp" "j1" finished_world) in
  conversion_tasks w' !! "j1" = None ∧
  (∀ other, other ≠ "j1" →
     conversion_tasks w' !! other = conversion_tasks finished_world !! other) ∧
  download "/tmp" "j1" w' = (Ok (Text "Job not found" 404), w') ∧
  files w' = files finished_world ∧
  "/tmp/flask_gif_output_j1.gif" ∈ files w'.
Proof.
  apply (download_removes_entry_keeps_file "/tmp" "j1" "/tmp/flask_gif_output_j1.gif"
           finished_world).
  vm_compute. reflexivity.
Defined.

(** ** The credential gate *)

Lemma py_or_header (header form : option string) :
  truthy header = true → py_or header form = header.
Proof. unfold py_or. by intros ->. Qed.

Lemma py_or_form (header form : option string) :
  truthy header = false → py_or header form = form.
Proof. unfold py_or. by intros ->. Qed.

Lemma blank_falsy (v : option string) : blank v ↔ truthy v = false.
Proof.
  unfold blank. split.
  - intros [-> | ->]; reflexivity.
  - destruct v as [[|c s]|]; cbn; auto; discriminate.
Qed.

(** C10: the gate decides on the header value when that is a non-empty
    string and on the form field otherwise; when both are absent or empty
    the outcome is the 401 'API key required' rejection, never the 403. *)
Theorem require_api_key_gate {A} (API_KEY : string) (f : A) (header form : option string) :
  (truthy header = true →
     require_api_key API_KEY f header form = require_api_key API_KEY f header None) ∧
  (truthy header = false →
     require_api_key API_KEY f header form = require_api_key API_KEY f None form) ∧
  (blank header → blank form →
     require_api_key API_KEY f header form
       = Rejected "API key required for conversion" 401) ∧
  (∀ key, key ≠ "" →
     require_api_key API_KEY f (Some key) form
       = if bool_decide (key = API_KEY) then Passed f else Rejected "Invalid API key" 403) ∧
  (∀ key, blank header → key ≠ "" →
     require_api_key API_KEY f header (Some key)
       = if bool_decide (key = API_KEY) then Passed f else Rejected "Invalid API key" 403).
Proof.
  assert (Hkey : ∀ key, key ≠ "" → truthy (Some key) = true).
  { intros [|c s] Hne; [done | reflexivity]. }
  assert (Hdec : ∀ key, negb (bool_decide (Some key = Some API_KEY))
                        = negb (bool_decide (key = API_KEY))).
  { intros key. f_equal. apply bool_decide_ext. naive_solver. }
  unfold require_api_key. repeat split.
  - intros Ht. by rewrite !py_or_header.
  - intros Hf. rewrite !py_or_form by (done || reflexivity). done.
  - intros Hh%blank_falsy Hf%blank_falsy. rewrite py_or_form by done. by rewrite Hf.
  - intros key Hne. rewrite py_or_header by auto. rewrite Hkey by done. cbn.
    rewrite Hdec. by case_bool_decide.
  - intros key Hh%blank_falsy Hne. rewrite py_or_form by done. rewrite Hkey by done. cbn.
    rewrite Hdec. by case_bool_decide.
Qed.

Lemma require_api_key_gate_witness :
  require_api_key "secret" tt (Some "") None = Rejected "API key required for conversion" 401 ∧
  require_api_key "secret" tt None (Some "") = Rejected "API key required for conversion" 401 ∧
  require_api_key "secret" tt (Some "secret") (Some "other") = Passed tt ∧
  require_api_key "secret" tt (Some "") (Some "secret") = Passed tt ∧
  require_api_key "secret" tt (Some "guess") (Some "secret") = Rejected "Invalid API key" 403.
Proof.
  destruct (require_api_key_gate "secret" tt (Some "") None) as (_ & _ & H1 & _ & _).
  destruct (require_api_key_gate "secret" tt None (Some "")) as (_ & _ & H2 & _ & _).
  destruct (require_api_key_gate "secret" tt (Some "") (Some "other")) as (_ & _ & _ & H3 & _).
  destruct (require_api_key_gate "secret" tt (Some "") (Some "secret")) as (_ & _ & _ & H4 & H5).
  split; [apply H1; [right | left]; reflexivity|].
  split; [apply H2; [left | right]; reflexivity|].
  split; [apply (H3 "secret"); discriminate|].
  split; [apply (H5 "secret"); [right; reflexivity | discriminate]|].
  apply (H4 "guess"). discriminate.
Defined.

(** ** The filename check *)

Lemma has_dot_In (s : string) :
  has_dot s = true ↔ In "."%char (list_ascii_of_string s).
Proof.
  induction s as [|c rest IH]; cbn.
  - split; [discriminate | tauto].
  - rewrite orb_true_iff, IH. unfold is_dot.
    rewrite Ascii.eqb_eq. intuition congruence.
Qed.

Lemma rsplit_last_dot_None (s : string) :
  rsplit_last_dot s = None ↔ has_dot s = false.
Proof.
  induction s as [|c rest IH]; cbn; [done|].
  destruct (rsplit_last_dot rest) as [[before after]|].
  - destruct IH as [_ IH]. split; [discriminate|].
    intros [_ Hrest]%orb_false_iff. by apply IH in Hrest.
  - destruct IH as [IH _]. rewrite (IH eq_refl), orb_false_r.
    destruct (is_dot c); split; congruence.
Qed.

Lemma dot_segments_nonempty (s : string) : dot_segments s ≠ [].
Proof.
  destruct s as [|c rest]; cbn; [done|].
  destruct (is_dot c); [done|]. by destruct (dot_segments rest).
Qed.

Lemma dot_segments_dotless (s : string) :
  rsplit_last_dot s = None → dot_segments s = [s].
Proof.
  induction s as [|c rest IH]; cbn; [done|].
  destruct (rsplit_last_dot rest) as [[before after]|]; [discriminate|].
  destruct (is_dot c); [discriminate|]. intros _. by rewrite IH.
Qed.

(** [rsplit('.', 1)] cuts off exactly the last of the dot-separated
    segments. *)
Lemma dot_segments_rsplit (s before after : string) :
  rsplit_last_dot s = Some (before, after) →
  dot_segments s = dot_segments before ++ [after].
Proof.
  revert before after. induction s as [|c rest IH]; intros before after; cbn; [discriminate|].
  destruct (rsplit_last_dot rest) as [[before' after']|] eqn:Hrest.
  - intros [= <- <-]. rewrite (IH _ _ eq_refl). cbn.
    destruct (is_dot c); [done|].
    pose proof (dot_segments_nonempty before') as Hne.
    by destruct (dot_segments before').
  - destruct (is_dot c); [|discriminate]. intros [= <- <-].
    by rewrite (dot_segments_dotless _ Hrest).
Qed.

Lemma rsplit1_ext (s : string) :
  has_dot s = true → rsplit1 s !! 1%nat = Some (final_segment s).
Proof.
  intros Hdot. unfold rsplit1, final_segment.
  destruct (rsplit_last_dot s) as [[before after]|] eqn:Hsplit.
  - rewrite (dot_segments_rsplit _ _ _ Hsplit), last_last. reflexivity.
  - apply rsplit_last_dot_None in Hsplit. congruence.
Qed.

(** C9: with Python's [str.lower] for [lower], a filename is accepted
    exactly when it contains a dot and its final dot-separated segment,
    lowercased, is one of mp4, avi, mov, mkv, webm; so [CLIP.MP4] is
    accepted ([str.lower] lowers ASCII text letter by letter) and every
    dotless name is rejected. *)
Theorem allowed_file_iff (lower : string → string) (filename : string) :
  (allowed_file lower filename = true ↔
     In "."%char (list_ascii_of_string filename) ∧
     In (lower (final_segment filename)) ["mp4"; "avi"; "mov"; "mkv"; "webm"]) ∧
  ((∀ s, ascii_text s = true → lower s = ascii_lower s) →
     allowed_file lower "CLIP.MP4" = true) ∧
  (¬ In "."%char (list_ascii_of_string filename) → allowed_file lower filename = false).
Proof.
  assert (Hset : ∀ ext, ext ∈ ALLOWED_EXTENSIONS ↔ In ext ["mp4"; "avi"; "mov"; "mkv"; "webm"]).
  { intros ext. unfold ALLOWED_EXTENSIONS.
    rewrite !elem_of_union, !elem_of_singleton. cbn. intuition congruence. }
  split; [|split].
  - unfold allowed_file. rewrite andb_true_iff, <- has_dot_In. split.
    + intros [Hdot Hext]. split; [done|].
      rewrite (rsplit1_ext _ Hdot) in Hext. apply Hset. by apply bool_decide_eq_true in Hext.
    + intros [Hdot Hext]. split; [done|].
      rewrite (rsplit1_ext _ Hdot). apply bool_decide_eq_true. by apply Hset.
  - intros Hlower. unfold allowed_file. cbn. rewrite (Hlower "MP4" eq_refl). reflexivity.
  - rewrite <- has_dot_In. intros Hno. unfold allowed_file.
    by destruct (has_dot filename).
Qed.

Lemma allowed_file_iff_witness :
  allowed_file ascii_lower "CLIP.MP4" = true ∧
  allowed_file ascii_lower "clip" = false.
Proof.
  destruct (allowed_file_iff ascii_lower "clip") as (_ & Hupper & Hdotless).
  split.
  - apply Hupper. intros s _. reflexivity.
  - apply Hdotless. cbn. intros [H | H]; [discriminate H|].
    repeat (destruct H as [H | H]; [discriminate H|]). exact H.
Defined.

(** ** The conversion adapter *)

(** *** The fitted time window *)


Lemma Qgt_bool_false (a b : Q) : Qgt_bool a b = false ↔ (a <= b)%Q.
Proof.
  unfold Qgt_bool. rewrite negb_false_iff. apply Qle_bool_iff.
Qed.

Lemma lib_call_ok lib c ev w : fault lib c = None → lib_call lib c ev w = (Ok tt, emit ev w).
Proof. intros Hc. unfold lib_call. by rewrite Hc. Qed.

(** C7, as stated, fails. The start offset is never clipped: for a 10.0s
    source, [start_time = 20.0] and [duration = 5.0], the duration becomes
    -10.0 and the adapter asks the library for the window from 20.0 to
    10.0, past the end of the source. And the fitted window can end after
    the source by rounding: for a source of 10.03s (as a float),
    [start_time = 0.71] and [duration = 10.0], the sum
    [0.71 + (10.03 - 0.71)] is the float after 10.03. *)
Lemma window_can_leave_source :
  clipped_duration 20 (Some 5%Q) 10 = Some (-10)%Q ∧
  trace (snd (convert_video_to_gif_web (Library 10 640 360 (λ _, None) true)
                "/tmp/in.mp4" "/tmp/out.gif" 10 1 20 (Some 5%Q) 0 1 None empty_world))
  = [Opened "/tmp/in.mp4"; Subclipped 20 (Some 10%Q); WithFps 10;
     WroteGif "/tmp/out.gif" 10 0; Closed] ∧
  (10 < 20)%Q ∧
  ∃ t1, subclip_window (round64 (71#100)) (Some 10%Q) (round64 (1003#100))
        = Some (round64 (71#100), Some t1) ∧
        (0 < round64 (71#100))%Q ∧ (round64 (71#100) < round64 (1003#100))%Q ∧
        (round64 (1003#100) < t1)%Q.
Proof.
  split; [vm_compute; reflexivity|]. split; [vm_compute; reflexivity|].
  split; [reflexivity|].
  eexists. split; [vm_compute; reflexivity|]. repeat split.
Qed.

(** C7, amended: only the duration is fitted, never the start offset. For
    a positive [start_time], the duration is replaced by
    [clip.duration - start_time] when the float sum [start_time + duration]
    exceeds the length of the source and is kept otherwise, and the window
    the adapter hands to [subclipped] runs from [start_time] to
    [start_time + duration]. For a [start_time] that is not positive, the
    duration is capped at the length of the source and the window runs
    from 0 to the duration, so it never ends after the source. A 10.0s clip
    with [start_time = 8.0] and [duration = 5.0] gets the duration 2.0 and
    the window from 8.0 to 10.0. *)
Theorem duration_fitted_to_source
    (lib : library) (c : clip) (start_time d : Q) (w : world) :
  fault lib CallSubclipped = None →
  ∃ d' t0 t1 c',
    clipped_duration start_time (Some d) (duration_of c) = Some d' ∧
    apply_window lib c start_time (Some d) w = (Ok c', emit (Subclipped t0 (Some t1)) w) ∧
    (Qgt_bool start_time 0 = true →
       d' = (if Qgt_bool (py_add start_time d) (duration_of c)
             then py_sub (duration_of c) start_time else d) ∧
       t0 = start_time ∧ t1 = py_add start_time d') ∧
    (Qgt_bool start_time 0 = false →
       d' = (if Qgt_bool d (duration_of c) then duration_of c else d) ∧
       t0 = 0%Q ∧ t1 = d' ∧ (t1 <= duration_of c)%Q) ∧
    clipped_duration 8 (Some 5%Q) 10 = Some 2%Q ∧
    subclip_window 8 (Some 5%Q) 10 = Some (8%Q, Some 10%Q).
Proof.
  intros Hfault. unfold apply_window, subclip_window, clipped_duration, subclipped.
  unfold mbind, M_bind. destruct (Qgt_bool start_time 0) eqn:Hpos.
  - rewrite lib_call_ok by done. eexists _, _, _, _.
    split; [reflexivity|]. split; [reflexivity|].
    split; [done|]. split; [done|]. split; vm_compute; reflexivity.
  - rewrite lib_call_ok by done. eexists _, _, _, _.
    split; [reflexivity|]. split; [reflexivity|].
    split; [done|]. split.
    + intros _. repeat split.
      destruct (Qgt_bool d (duration_of c)) eqn:Hlong; [apply Qle_refl|].
      by apply Qgt_bool_false.
    + split; vm_compute; reflexivity.
Qed.

Lemma duration_fitted_to_source_witness :
  ∃ d' t0 t1 c',
    clipped_duration 8 (Some 5%Q) 10 = Some d' ∧
    apply_window (Library 10 640 360 (λ _, None) true) (Clip 10 640 360) 8 (Some 5%Q)
      empty_world
    = (Ok c', emit (Subclipped t0 (Some t1)) empty_world) ∧
    (Qgt_bool 8 0 = true →
       d' = (if Qgt_bool (py_add 8 5) 10 then py_sub 10 8 else 5%Q) ∧
       t0 = 8%Q ∧ t1 = py_add 8 d') ∧
    (Qgt_bool 8 0 = false →
       d' = (if Qgt_bool 5 10 then 10%Q else 5%Q) ∧
       t0 = 0%Q ∧ t1 = d' ∧ (t1 <= 10)%Q) ∧
    clipped_duration 8 (Some 5%Q) 10 = Some 2%Q ∧
    subclip_window 8 (Some 5%Q) 10 = Some (8%Q, Some 10%Q).
Proof.
  apply (duration_fitted_to_source (Library 10 640 360 (λ _, None) true)
           (Clip 10 640 360) 8 5 empty_world).
  reflexivity.
Defined.

(** *** Running the adapter with the runner's callback *)

Lemma safe_progress_report (job_id : string) (percent : Z) (w : world) :
  safe_progress (Some (update_progress job_id)) percent w = (Ok tt, report job_id percent w).
Proof.
  unfold safe_progress, report, update_progress. unfold_M. cbn.
  by destruct (conversion_tasks w !! job_id).
Qed.

(** Symbolic execution of monadic code, one layer at a time. *)
Ltac run_M :=
  repeat (progress (unfold mbind, M_bind, mret, M_ret, modify, get_world, raise,
                      try_except, try_finally;
                    cbn beta iota; rewrite ?safe_progress_report)).

Lemma progress_values_app (t u : list event) :
  progress_values (t ++ u) = progress_values t ++ progress_values u.
Proof. apply omap_app. Qed.

Lemma closes_app (t u : list event) : closes (t ++ u) = (closes t + closes u)%nat.
Proof. unfold closes. by rewrite omap_app, length_app. Qed.

Lemma trace_report j p w : trace (report j p w) = trace w ++ [Progress p].
Proof. unfold report, update_progress. cbn. by destruct (conversion_tasks w !! j). Qed.
Lemma files_report j p w : files (report j p w) = files w.
Proof. unfold report, update_progress. cbn. by destruct (conversion_tasks w !! j). Qed.
Lemma readers_report j p w : open_readers (report j p w) = open_readers w.
Proof. unfold report, update_progress. cbn. by destruct (conversion_tasks w !! j). Qed.
Lemma tasks_report j p w :
  conversion_tasks (report j p w)
  = match conversion_tasks w !! j with
    | Some task => <[j := <["progress" := VInt p]> task]> (conversion_tasks w)
    | None => conversion_tasks w
    end.
Proof. unfold report, update_progress. cbn. by destruct (conversion_tasks w !! j). Qed.

Lemma dom_tasks_report j p w :
  dom (conversion_tasks (report j p w)) = dom (conversion_tasks w).
Proof.
  rewrite tasks_report. destruct (conversion_tasks w !! j) as [task|] eqn:Hin; [|done].
  rewrite dom_insert_L. apply subseteq_union_1_L, singleton_subseteq_l.
  by apply elem_of_dom_2 in Hin.
Qed.
Lemma closes_report j p w : closes (trace (report j p w)) = closes (trace w).
Proof. rewrite trace_report, closes_app. cbn. lia. Qed.
Lemma progress_report j p w :
  progress_values (trace (report j p w)) = progress_values (trace w) ++ [p].
Proof. by rewrite trace_report, progress_values_app. Qed.

Lemma silent_refl (w : world) : silent w w.
Proof. by repeat split. Qed.

Lemma silent_emit (ev : event) (w : world) : library_event ev → silent w (emit ev w).
Proof.
  intros Hev. unfold silent. change (trace (emit ev w)) with (trace w ++ [ev]).
  rewrite progress_values_app, closes_app.
  do 3 (split; [reflexivity|]).
  destruct ev; cbn in *; try done; rewrite ?app_nil_r; split; (done || lia).
Qed.

Lemma transform_ret {A} (lib : library) (c : call) (a : A) : transform_step lib c (mret a).
Proof. intros w. apply silent_refl. Qed.

Lemma transform_call {A} (lib : library) (c : call) (ev : event) (a : A) :
  library_event ev → transform_step lib c (lib_call lib c ev;; mret a).
Proof.
  intros Hev w. unfold lib_call. unfold_M.
  destruct (fault lib c) as [msg|]; [by eauto | by apply silent_emit].
Qed.

Lemma apply_window_step lib c start_time duration :
  transform_step lib CallSubclipped (apply_window lib c start_time duration).
Proof.
  unfold apply_window. destruct (subclip_window _ _ _) as [[t0 t1]|].
  - by apply transform_call.
  - apply transform_ret.
Qed.

Lemma apply_speed_step lib c speed :
  transform_step lib CallWithSpeedScaled (apply_speed lib c speed).
Proof.
  unfold apply_speed. destruct (negb _); [destruct (Qgt_bool _ _)|];
    (by apply transform_call) || apply transform_ret.
Qed.

(** The resize step has two calls that can fail: [int(...)] and
    [resized]. *)
Lemma apply_scale_step lib c scale w :
  match apply_scale lib c scale w with
  | (Ok _, w') => silent w w'
  | (Raise e, w') =>
      w' = w ∧ ∃ failed msg, (failed = CallInt ∨ failed = CallResized) ∧
                             fault lib failed = Some msg ∧ e = LibraryError msg
  end.
Proof.
  unfold apply_scale. destruct (negb _); [|apply silent_refl].
  unfold new_size, mbind, M_bind. destruct (fault lib CallInt) as [msg|] eqn:Hint.
  - split; [done|]. exists CallInt, msg. auto.
  - pose proof (transform_call lib CallResized
                  (Resized (scaled (w_of c) scale) (scaled (h_of c) scale))
                  (Clip (duration_of c) (scaled (w_of c) scale) (scaled (h_of c) scale))
                  I w) as Hstep.
    unfold resized. cbn [fst snd].
    destruct ((lib_call lib CallResized _ ;; mret _) w) as [[c'|e] w'] eqn:Hrun;
      [done|].
    destruct Hstep as (-> & msg & Hfault & ->). split; [done|].
    exists CallResized, msg. auto.
Qed.

Lemma with_fps_step lib c fps : transform_step lib CallWithFps (with_fps lib c fps).
Proof. by apply transform_call. Qed.

(** The last stage (lines 88-104) with the runner's callback. *)
Lemma write_and_verify_outcome lib j out fps loops w :
  write_and_verify lib (Some (update_progress j)) out fps loops w
  = match fault lib CallWriteGif with
    | Some _ => (Ok false, close_world (report j (-1) w))
    | None =>
        let w1 := emit (WroteGif out fps loops) w in
        let w2 := if produces_output lib then set_files ({[out]} ∪ files w1) w1 else w1 in
        if bool_decide (out ∈ files w2)
        then (Ok true, close_world (report j 100 w2))
        else (Ok false, close_world (report j (-1) w2))
    end.
Proof.
  unfold write_and_verify, write_gif, lib_call, path_exists, close.
  destruct (fault lib CallWriteGif) as [msg|]; run_M; [reflexivity|].
  destruct (produces_output lib); run_M; case_bool_decide; run_M; reflexivity.
Qed.

Ltac use_silent :=
  repeat match goal with
         | H : silent _ _ |- _ => destruct H as (? & ? & ? & ? & ?)
         end.

Ltac observe :=
  cbn [trace files open_readers conversion_tasks close_world set_readers set_files emit];
  repeat first
    [ rewrite progress_report | rewrite closes_report | rewrite files_report
    | rewrite readers_report | rewrite dom_tasks_report
    | rewrite progress_values_app | rewrite closes_app
    | match goal with
      | H : progress_values (trace ?w) = _ |- context [progress_values (trace ?w)] => rewrite H
      | H : closes (trace ?w) = _ |- context [closes (trace ?w)] => rewrite H
      | H : files ?w = _ |- context [files ?w] => rewrite H
      | H : open_readers ?w = _ |- context [open_readers ?w] => rewrite H
      | H : conversion_tasks ?w = _ |- context [conversion_tasks ?w] => rewrite H
      end
    | progress cbn [trace files open_readers conversion_tasks close_world set_readers
                    set_files emit] ].

Ltac transform_cases lem m :=
  let Hs := fresh "Hstep" in
  pose proof lem as Hs;
  destruct m as [[?c|?e] ?w];
  [ | destruct Hs as (-> & ?msg & ?Hfault & ->) ].

Ltac next_transform :=
  lazymatch goal with
  | |- context [apply_window ?l ?c ?s ?d ?w] =>
      transform_cases (apply_window_step l c s d w) (apply_window l c s d w)
  | |- context [apply_speed ?l ?c ?s ?w] =>
      transform_cases (apply_speed_step l c s w) (apply_speed l c s w)
  | |- context [apply_scale ?l0 ?c0 ?s0 ?w0] =>
      let Hs := fresh "Hstep" in
      pose proof (apply_scale_step l0 c0 s0 w0) as Hs;
      destruct (apply_scale l0 c0 s0 w0) as [[?c|?e] ?w];
      [ | destruct Hs as (-> & ?failed & ?msg & [-> | ->] & ?Hfault & ->) ]
  | |- context [with_fps ?l ?c ?f ?w] =>
      transform_cases (with_fps_step l c f w) (with_fps l c f w)
  end.

Ltac in_list := by repeat first [apply list_elem_of_here | apply list_elem_of_further].

Ltac settle := observe; rewrite <- ?app_assoc; try done; try (cbn; lia).

Ltac transform_fault c reported :=
  intros [= <- <-]; use_silent;
  split; [eapply (exit_transform_fault _ _ _ c reported); eauto; [in_list|..]|];
  settle.

Lemma adapter_exits lib inp out fps scale st d loops speed j w r w' :
  convert_video_to_gif_web lib inp out fps scale st d loops speed
    (Some (update_progress j)) w = (r, w') →
  adapter_exit lib out w r w' ∧
  dom (conversion_tasks w') = dom (conversion_tasks w).
Proof.
  unfold convert_video_to_gif_web, VideoFileClip, lib_call. run_M.
  destruct (fault lib CallVideoFileClip) as [msg|] eqn:Hopen; run_M.
  { intros [= <- <-]. split; [eapply exit_unreadable; eauto|]; observe; try done.
    by rewrite <- app_assoc. }
  next_transform; [|transform_fault CallSubclipped [5; 20]].
  run_M.
  next_transform; [|transform_fault CallWithSpeedScaled [5; 20; 40]].
  run_M.
  next_transform; [|transform_fault CallInt [5; 20; 40; 50]
                    |transform_fault CallResized [5; 20; 40; 50]].
  run_M.
  next_transform; [|transform_fault CallWithFps [5; 20; 40; 50; 70]].
  run_M. use_silent.
  match goal with
  | |- context [write_and_verify _ _ _ _ _ ?wl] =>
      assert (Hfiles : files wl = files w) by settle
  end.
  rewrite write_and_verify_outcome.
  destruct (fault lib CallWriteGif) as [msg|] eqn:Hwrite.
  { intros [= <- <-]. split; [eapply exit_write_fault; eauto|]; settle. }
  cbn zeta. destruct (produces_output lib) eqn:Hprod; case_bool_decide as Hout;
    cbn [files emit set_files] in Hout; rewrite Hfiles in Hout; intros [= <- <-].
  - split; [eapply exit_success; eauto; rewrite ?Hprod|]; settle.
  - exfalso. apply Hout, elem_of_union. left. by apply elem_of_singleton.
  - split; [eapply exit_success; eauto; rewrite ?Hprod|]; settle.
  - split; [eapply exit_output_missing; eauto|]; settle.
Qed.

(** When the adapter returns, every reader it opened has been closed;
    when it raises, the reader of the source is still open. *)
Lemma adapter_reader_balance lib inp out fps scale st d loops speed j w r w' :
  convert_video_to_gif_web lib inp out fps scale st d loops speed
    (Some (update_progress j)) w = (r, w') →
  match r with
  | Ok _ => open_readers w' = open_readers w
  | Raise _ => open_readers w' = S (open_readers w) ∧ closes (trace w') = closes (trace w)
  end.
Proof.
  intros Hrun. destruct (adapter_exits _ _ _ _ _ _ _ _ _ _ _ _ _ Hrun) as [Hexit _].
  by destruct Hexit.
Qed.

(** What the callback has been given, by kind of exit: the seven
    strictly increasing checkpoints ending in 100 on success, a sequence
    ending in -1 when the adapter returns [False], and a sequence ending in
    20, 40, 50 or 70 when it raises. *)
Lemma adapter_progress lib inp out fps scale st d loops speed j w r w' :
  convert_video_to_gif_web lib inp out fps scale st d loops speed
    (Some (update_progress j)) w = (r, w') →
  ∃ reported,
    progress_values (trace w') = progress_values (trace w) ++ reported ∧
    match r with
    | Ok true =>
        reported = [5; 20; 40; 50; 70; 80; 100] ∧
        StronglySorted Z.lt reported ∧ List.last reported 0 = 100
    | Ok false => List.last reported 0 = -1
    | Raise _ => List.last reported 0 ∈ [20; 40; 50; 70]
    end.
Proof.
  intros Hrun. destruct (adapter_exits _ _ _ _ _ _ _ _ _ _ _ _ _ Hrun) as [Hexit _].
  destruct Hexit as [w' | msg w' | msg w' | w' | c reported msg w' ? Hin];
    try (eexists; split; [eassumption|]; reflexivity).
  { eexists. split; [eassumption|]. split; [reflexivity|]. split; [|reflexivity].
    repeat constructor. }
  exists reported. split; [assumption|].
  repeat (apply elem_of_cons in Hin as [[= -> ->] | Hin]; [cbn; in_list|]).
  by apply elem_of_nil in Hin.
Qed.

(** C3, the code at the failing input: the source is opened, [subclipped]
    raises, the exception leaves the adapter, and [clip.close()] is never
    called: one reader stays open. *)
Theorem convert_leaks_reader_when_transform_raises :
  fst run_start_past_end
    = Raise (LibraryError
               "start_time (20.00) should be smaller than the clip's duration (10.00).") ∧
  trace (snd run_start_past_end)
    = [Progress 5; Opened "/tmp/flask_gif_input_j1_in.mp4"; Progress 20] ∧
  closes (trace (snd run_start_past_end)) = 0%nat ∧
  open_readers submitted_world = 0%nat ∧
  open_readers (snd run_start_past_end) = 1%nat.
Proof. repeat split; vm_compute; reflexivity. Qed.

(** C6, the code at the failing input: the adapter exits without success
    and the last value given to the callback is 20, not -1. *)
Theorem convert_last_progress_when_transform_raises :
  fst run_start_past_end ≠ Ok true ∧
  progress_values (trace (snd run_start_past_end)) = [5; 20] ∧
  List.last (progress_values (trace (snd run_start_past_end))) 0 = 20 ∧
  20 ≠ -1.
Proof. repeat split; vm_compute; congruence. Qed.

(** ** The job runner *)

Lemma tasks_update_present j other task w :
  conversion_tasks w !! j = Some task →
  tasks_update j other w
  = (Ok tt, set_tasks (<[j := dict_update other task]> (conversion_tasks w)) w).
Proof. intros H. unfold tasks_update. by rewrite H. Qed.

(** The runner never faults: whatever way the adapter exits, the job's
    entry is still registered and receives the verdict, and the input file
    is removed. *)
Lemma background_convert_outcome lib inp out ps j w r w1 :
  convert_video_to_gif_web lib inp out (p_fps ps) (p_scale ps) (p_start_time ps)
    (p_duration ps) (p_loops ps) (p_speed ps) (Some (update_progress j))
    (snd (tasks_setitem j processing_entry w)) = (r, w1) →
  ∃ task1,
    conversion_tasks w1 !! j = Some task1 ∧
    background_convert lib inp out ps j w
    = (Ok tt, cleanup lib inp
                (set_tasks (<[j := dict_update (verdict r) task1]> (conversion_tasks w1)) w1)).
Proof.
  intros Hrun.
  destruct (adapter_exits _ _ _ _ _ _ _ _ _ _ _ _ _ Hrun) as [_ Hdom].
  assert (Hin : is_Some (conversion_tasks w1 !! j)).
  { apply elem_of_dom. rewrite Hdom. cbn. rewrite dom_insert_L.
    apply elem_of_union. left. by apply elem_of_singleton. }
  destruct Hin as [task1 Hin]. exists task1. split; [done|].
  unfold background_convert, tasks_setitem, path_exists, unlink, pass_OSError, cleanup.
  unfold complete, fail_job.
  change (λ p : Z, update_progress j p) with (update_progress j).
  cbn [tasks_setitem modify snd] in Hrun.
  unfold mbind, M_bind, mret, M_ret, modify, get_world, try_except, try_finally.
  cbn beta iota. rewrite Hrun.
  destruct r as [[|]|e]; cbn beta iota;
    rewrite (tasks_update_present _ _ _ _ Hin); cbn [files set_tasks];
    (case_bool_decide; [by destruct (fault lib CallUnlink)|done]).
Qed.

Lemma verdict_lookup (r : result bool) (task1 : gmap string pyval) (key : string) (v : pyval) :
  verdict r !! key = Some v → dict_update (verdict r) task1 !! key = Some v.
Proof. apply lookup_union_Some_l. Qed.

Lemma tasks_cleanup lib inp w : conversion_tasks (cleanup lib inp w) = conversion_tasks w.
Proof. unfold cleanup. case_bool_decide; [by destruct (fault lib CallUnlink)|done]. Qed.

(** C5, as stated, fails: when the conversion runs and leaves no output,
    the detail the runner records is 'Conversion failed', the very entry it
    records for a source that could not be opened; it says nothing of a
    missing output. *)
Lemma output_missing_recorded_as_conversion_failed :
  ("/tmp/flask_gif_output_j1.gif" ∉ files (world_after no_output)) ∧
  (job_after no_output ≫= status_of) = Some (VStr "failed") ∧
  (job_after no_output ≫= (λ task, task !! "error")) = Some (VStr "Conversion failed") ∧
  VStr "Conversion failed" ≠ VStr "output missing" ∧
  job_after no_output = job_after unreadable.
Proof.
  split.
  { intros Hin. apply (bool_decide_pack _) in Hin. vm_compute in Hin. exact Hin. }
  split; [vm_compute; reflexivity|].
  split; [vm_compute; reflexivity|]. split; [discriminate|].
  vm_compute. reflexivity.
Qed.

(** C5, amended: the runner never faults and records a verdict by the way
    the adapter exited. When the adapter reports success the output file
    exists and the job is marked Completed with progress 100. When the
    adapter reports failure the job is marked Failed with progress 0 and
    the one generic detail 'Conversion failed'; this is what happens when
    every library call returned but the output file does not exist
    afterwards. When the adapter raises, the job is marked Failed with the
    text of the exception. *)
Theorem background_convert_verdict lib inp out ps j w r w1 :
  convert_video_to_gif_web lib inp out (p_fps ps) (p_scale ps) (p_start_time ps)
    (p_duration ps) (p_loops ps) (p_speed ps) (Some (update_progress j))
    (snd (tasks_setitem j processing_entry w)) = (r, w1) →
  ∃ task w',
    background_convert lib inp out ps j w = (Ok tt, w') ∧
    conversion_tasks w' !! j = Some task ∧
    match r with
    | Ok true =>
        out ∈ files w1 ∧
        status_of task = Some (VStr "completed") ∧ progress_of task = Some (VInt 100)
    | Ok false =>
        status_of task = Some (VStr "failed") ∧ progress_of task = Some (VInt 0) ∧
        task !! "error" = Some (VStr "Conversion failed")
    | Raise e =>
        status_of task = Some (VStr "failed") ∧ progress_of task = Some (VInt 0) ∧
        task !! "error" = Some (VStr (str_of_exn e))
    end ∧
    ((∀ c, fault lib c = None) → produces_output lib = false → out ∉ files w →
     r = Ok false).
Proof.
  intros Hrun.
  destruct (background_convert_outcome _ _ _ _ _ _ _ _ Hrun) as (task1 & Hin & Hbg).
  destruct (adapter_exits _ _ _ _ _ _ _ _ _ _ _ _ _ Hrun) as [Hexit _].
  eexists _, _. split; [exact Hbg|].
  rewrite tasks_cleanup. cbn [conversion_tasks set_tasks]. rewrite lookup_insert_eq.
  split; [reflexivity|]. split.
  - unfold status_of, progress_of.
    destruct Hexit; repeat split; try (by apply verdict_lookup); assumption.
  - intros Hnofault Hprod Hmissing.
    destruct Hexit as [w1 _ _ _ _ _ Hfiles Hout | | | |];
      try reflexivity; try congruence.
    rewrite Hfiles, Hprod in Hout. done.
Qed.

Lemma background_convert_verdict_witness :
  ∃ task w',
    background_convert no_output "/tmp/flask_gif_input_j1_in.mp4"
      "/tmp/flask_gif_output_j1.gif" default_params "j1" submitted_world = (Ok tt, w') ∧
    conversion_tasks w' !! "j1" = Some task ∧
    (status_of task = Some (VStr "failed") ∧ progress_of task = Some (VInt 0) ∧
     task !! "error" = Some (VStr "Conversion failed")) ∧
    ((∀ c, fault no_output c = None) → produces_output no_output = false →
     "/tmp/flask_gif_output_j1.gif" ∉ files submitted_world →
     Ok false = Ok false).
Proof.
  apply (background_convert_verdict no_output "/tmp/flask_gif_input_j1_in.mp4"
           "/tmp/flask_gif_output_j1.gif" default_params "j1" submitted_world (Ok false)
           (snd (convert_video_to_gif_web no_output "/tmp/flask_gif_input_j1_in.mp4"
                   "/tmp/flask_gif_output_j1.gif" 10 (1#2) 0 None 0 1
                   (Some (update_progress "j1"))
                   (snd (tasks_setitem "j1" processing_entry submitted_world))))).
  vm_compute. reflexivity.
Defined.

(** ** Polling and retrieval *)

Lemma progress_unchanged (job_id : string) (w : world) : snd (progress job_id w) = w.
Proof. unfold progress. unfold_M. by destruct (conversion_tasks w !! job_id). Qed.

(** X1: [download] changes the world only when it sends the file. It never
    changes the set of files, and whenever it answers anything else (400
    for a job that is not completed, 404 for an unknown job or a vanished
    output, or an exception) the registry is exactly as before, so the job
    can still be polled and retrieved later. *)
Theorem download_changes_only_on_success (tmp job_id : string) (w : world) :
  files (snd (download tmp job_id w)) = files w ∧
  ((∀ path, fst (download tmp job_id w) ≠ Ok (SendFile path)) →
     snd (download tmp job_id w) = w) ∧
  (∀ task, conversion_tasks w !! job_id = Some task →
     status_of task ≠ Some (VStr "completed") →
     download tmp job_id w = (Ok (Text "Conversion not completed or failed" 400), w)) ∧
  (∀ task name, conversion_tasks w !! job_id = Some task →
     status_of task = Some (VStr "completed") →
     task !! "output_filename" = Some (VStr name) →
     path_join tmp name ∉ files w →
     download tmp job_id w = (Ok (Text "Output file not found" 404), w)).
Proof.
  assert (Hcases :
    files (snd (download tmp job_id w)) = files w ∧
    ((∀ path, fst (download tmp job_id w) ≠ Ok (SendFile path)) →
     snd (download tmp job_id w) = w)).
  { unfold download, path_exists. unfold_M. cbn.
    destruct (conversion_tasks w !! job_id) as [task|]; [|done].
    case_bool_decide; [done|].
    destruct (task !! "output_filename") as [[name|z]|]; try done.
    case_bool_decide; [|done]. cbn.
    split; [done|]. intros Hne. by destruct (Hne (path_join tmp name)). }
  destruct Hcases as [Hfiles Hsame]. split; [exact Hfiles|]. split; [exact Hsame|].
  unfold download, path_exists, status_of. unfold_M. cbn. split.
  - intros task -> Hst. by rewrite bool_decide_eq_true_2.
  - intros task name -> Hst Hname Hno.
    rewrite bool_decide_eq_false_2 by (intros Hc; by apply Hc).
    rewrite Hname. by rewrite bool_decide_eq_false_2.
Qed.

(** X2: once [download] has sent the file of a job, polling that job
    answers 404 with the body [{'error': 'Job not found'}], and the poll
    itself changes nothing. *)
Theorem progress_after_download (tmp job_id path : string) (w w' : world) :
  download tmp job_id w = (Ok (SendFile path), w') →
  progress job_id w' = (Ok ({[ "error" := VStr "Job not found" ]}, 404), w').
Proof.
  intros Hdl.
  destruct (download_sends_inv _ _ _ _ _ Hdl) as (task & name & _ & _ & _ & _ & _ & ->).
  unfold progress. unfold_M. cbn. by rewrite lookup_delete_eq.
Qed.

Lemma progress_after_download_witness :
  progress "j1" (snd (download "/tmp" "j1" finished_world))
  = (Ok ({[ "error" := VStr "Job not found" ]}, 404), snd (download "/tmp" "j1" finished_world)).
Proof.
  apply (progress_after_download "/tmp" "j1" "/tmp/flask_gif_output_j1.gif" finished_world).
  vm_compute. reflexivity.
Defined.

(** ** Configuration and the gate *)

Lemma truthy_Some (v : option string) :
  truthy v = true ↔ ∃ s, v = Some s ∧ s ≠ "".
Proof.
  destruct v as [[|c r]|]; cbn.
  - split; [discriminate|]. intros (s & [= <-] & Hne). done.
  - split; [intros _; by eexists | done].
  - split; [discriminate|]. intros (s & Hs & _). discriminate.
Qed.

(** X3: the key the application starts with is never empty: it is the
    value of [GIF_API_KEY] when that is set and non-empty, and otherwise
    the development default; start-up fails exactly when [GIF_API_KEY] is
    unset or empty and [FLASK_ENV] is ['production']. *)
Theorem configure_api_key_nonempty (GIF_API_KEY FLASK_ENV : option string) :
  (∀ key, configure_api_key GIF_API_KEY FLASK_ENV = Some key →
     key ≠ "" ∧
     (truthy GIF_API_KEY = true → GIF_API_KEY = Some key) ∧
     (truthy GIF_API_KEY = false → key = "development-api-key-change-in-production")) ∧
  (configure_api_key GIF_API_KEY FLASK_ENV = None ↔
     truthy GIF_API_KEY = false ∧ FLASK_ENV = Some "production").
Proof.
  unfold configure_api_key.
  destruct (truthy GIF_API_KEY) eqn:Hkey; cbn.
  - split.
    + intros key ->. apply truthy_Some in Hkey as (s & [= <-] & Hne). done.
    + apply truthy_Some in Hkey as (s & -> & Hne). split; [discriminate | intros [? _]; done].
  - case_bool_decide as Hprod; split; try done.
    + intros key [= <-]. done.
    + split; [discriminate | intros [_ ?]; done].
Qed.

(** X4: with the key the application has configured, a request passes the
    gate exactly when the credential it presents (the header if non-empty,
    else the form field) is that key. *)
Theorem gate_passes_iff_key {A} (GIF_API_KEY FLASK_ENV header form : option string)
    (API_KEY : string) (f : A) :
  configure_api_key GIF_API_KEY FLASK_ENV = Some API_KEY →
  require_api_key API_KEY f header form = Passed f ↔ py_or header form = Some API_KEY.
Proof.
  intros Hcfg.
  destruct (configure_api_key_nonempty GIF_API_KEY FLASK_ENV) as [Hne _].
  destruct (Hne _ Hcfg) as [Hkey _].
  unfold require_api_key.
  destruct (truthy (py_or header form)) eqn:Ht; cbn.
  - case_bool_decide; cbn; split; congruence.
  - split; [discriminate|]. intros Heq. rewrite Heq in Ht.
    destruct API_KEY; [done | discriminate].
Qed.

Lemma gate_passes_iff_key_witness :
  require_api_key "k3y" tt (Some "") (Some "k3y") = Passed tt
  ↔ py_or (Some "") (Some "k3y") = Some "k3y".
Proof.
  apply (gate_passes_iff_key (Some "k3y") (Some "production")). reflexivity.
Defined.

(** ** The sweep of the temporary directory *)

Lemma sweep_one_swept locked now entry dir :
  sweep_one locked now entry dir
  = if swept locked now entry.1 entry.2 then delete entry.1 dir else dir.
Proof.
  unfold sweep_one, swept.
  destruct (glob_flask_gif entry.1), (Qgt_bool (now - 3600) entry.2); cbn; try done.
  by case_bool_decide.
Qed.

Lemma sweep_keeps locked now (l : list (string * Q)) dir name :
  (∀ mtime, (name, mtime) ∈ l → swept locked now name mtime = false) →
  foldr (sweep_one locked now) dir l !! name = dir !! name.
Proof.
  induction l as [|[n m] l IH]; intros Hl; cbn; [done|].
  rewrite sweep_one_swept. cbn.
  assert (Hrest : foldr (sweep_one locked now) dir l !! name = dir !! name).
  { apply IH. intros mtime Hin. apply Hl. by apply list_elem_of_further. }
  destruct (swept locked now n m) eqn:Hs; [|done].
  destruct (decide (n = name)) as [->|Hne].
  - rewrite (Hl m) in Hs; [done | apply list_elem_of_here].
  - by rewrite lookup_delete_ne.
Qed.

Lemma sweep_drops locked now (l : list (string * Q)) dir name mtime :
  (name, mtime) ∈ l → swept locked now name mtime = true →
  foldr (sweep_one locked now) dir l !! name = None.
Proof.
  intros Hin Hs. induction l as [|[n m] l IH]; [by apply elem_of_nil in Hin|].
  cbn. rewrite sweep_one_swept. cbn.
  apply elem_of_cons in Hin as [[= <- <-]|Hin].
  - rewrite Hs. apply lookup_delete_eq.
  - specialize (IH Hin). destruct (swept locked now n m); [|done].
    destruct (decide (n = name)) as [->|Hne];
      [apply lookup_delete_eq | by rewrite lookup_delete_ne].
Qed.

(** X5: what a sweep leaves. A file is removed exactly when its name
    starts with [flask_gif_], it was last modified more than 3600 seconds
    before the sweep, and [unlink] does not fail on it; every other file
    stays, with its modification time. *)
Theorem cleanup_old_files_lookup (locked : gset string) (current_time : Q)
    (temp_dir : gmap string Q) (name : string) :
  cleanup_old_files locked current_time temp_dir !! name
  = match temp_dir !! name with
    | Some mtime => if swept locked current_time name mtime then None else Some mtime
    | None => None
    end.
Proof.
  unfold cleanup_old_files.
  destruct (temp_dir !! name) as [mtime|] eqn:Hin.
  - destruct (swept locked current_time name mtime) eqn:Hs.
    + apply (sweep_drops _ _ _ _ _ mtime); [by apply elem_of_map_to_list | done].
    + rewrite sweep_keeps; [done|].
      intros m Hm%elem_of_map_to_list. congruence.
  - rewrite sweep_keeps; [done|].
    intros m Hm%elem_of_map_to_list. congruence.
Qed.

(** X6: a sweep never touches a file whose name does not start with
    [flask_gif_], nor one modified within the last hour, and it creates no
    file; sweeping again at the same moment changes nothing more. *)
Theorem cleanup_old_files_frame (locked : gset string) (current_time : Q)
    (temp_dir : gmap string Q) :
  (∀ name, glob_flask_gif name = false →
     cleanup_old_files locked current_time temp_dir !! name = temp_dir !! name) ∧
  (∀ name mtime, temp_dir !! name = Some mtime → (current_time - 3600 <= mtime)%Q →
     cleanup_old_files locked current_time temp_dir !! name = Some mtime) ∧
  cleanup_old_files locked current_time temp_dir ⊆ temp_dir ∧
  cleanup_old_files locked current_time (cleanup_old_files locked current_time temp_dir)
  = cleanup_old_files locked current_time temp_dir.
Proof.
  split; [|split; [|split]].
  - intros name Hglob. rewrite cleanup_old_files_lookup. unfold swept. rewrite Hglob. cbn.
    by destruct (temp_dir !! name).
  - intros name mtime Hin Hyoung. rewrite cleanup_old_files_lookup, Hin. unfold swept.
    apply Qgt_bool_false in Hyoung. rewrite Hyoung, andb_false_r. done.
  - apply map_subseteq_spec. intros name mtime. rewrite cleanup_old_files_lookup.
    destruct (temp_dir !! name) as [m|]; [|done]. by destruct (swept _ _ _ _).
  - apply map_eq. intros name. rewrite !cleanup_old_files_lookup.
    destruct (temp_dir !! name) as [m|]; [|done].
    destruct (swept locked current_time name m) eqn:Hs; [done|]. by rewrite Hs.
Qed.



(** ** Submission *)

Lemma allowed_file_nonempty (lower : string → string) (filename : string) :
  allowed_file lower filename = true → String.eqb filename "" = false.
Proof. by destruct filename. Qed.

(** X8: a submission without a video, with an empty file name, or with a
    file name the extension check refuses is answered by a redirect and
    has no effect at all: no file is saved and no job is registered. *)
Theorem convert_rejects_without_effect
    (lower : string → string)
    (parse_int : string → option Z) (parse_float : string → option Q)
    (secure_filename : string → string) (tmp job_id : string) (req : request) (w : world) :
  (∀ filename, req_video req = Some filename → allowed_file lower filename = false) →
  ∃ flashed,
    convert lower parse_int parse_float secure_filename tmp job_id req w = (Ok (Redirected flashed), w).
Proof.
  intros Hbad. unfold convert.
  destruct (req_video req) as [filename|]; [|by eexists].
  rewrite (Hbad filename eq_refl), orb_true_r.
  destruct (String.eqb filename ""); by eexists.
Qed.

Lemma convert_rejects_without_effect_witness :
  ∃ flashed,
    convert ascii_lower (λ _, None) (λ _, None) id "/tmp" "j2"
      (Request None ∅ (Some "clip.txt")) finished_world
    = (Ok (Redirected flashed), finished_world).
Proof.
  apply convert_rejects_without_effect. intros filename [= <-]. reflexivity.
Defined.

(** X9: an accepted submission. When the file name passes the extension
    check and every form field converts, the handler saves the upload
    under [flask_gif_input_<job id>_<secured name>], registers the job as
    processing with progress 0 and the output file name
    [flask_gif_output_<job id>.gif], and leaves every other job and file
    alone. The output path given to the thread is the path [download] will
    look for, and a poll right after the submission shows the job as
    processing with progress 0. *)
Theorem convert_accepts
    (lower : string → string)
    (parse_int : string → option Z) (parse_float : string → option Q)
    (secure_filename : string → string) (tmp job_id filename : string)
    (req : request) (ps : params) (w : world) :
  req_video req = Some filename →
  allowed_file lower filename = true →
  read_params parse_int parse_float (req_form req) = Some ps →
  ∃ w',
    let temp_input := path_join tmp (input_name job_id (secure_filename filename)) in
    let entry := submitted_entry (output_name job_id) in
    convert lower parse_int parse_float secure_filename tmp job_id req w
    = (Ok (Accepted job_id (Spawn temp_input (path_join tmp (output_name job_id)) ps job_id)),
       w') ∧
    conversion_tasks w' = <[job_id := entry]> (conversion_tasks w) ∧
    files w' = {[temp_input]} ∪ files w ∧
    entry !! "output_filename" = Some (VStr (output_name job_id)) ∧
    status_of entry = Some (VStr "processing") ∧ progress_of entry = Some (VInt 0) ∧
    progress job_id w' = (Ok (entry, 200), w').
Proof.
  intros Hvideo Hallowed Hparams. unfold convert.
  rewrite Hvideo, Hallowed, (allowed_file_nonempty _ _ Hallowed), Hparams. cbn.
  eexists. split; [reflexivity|]. cbn.
  repeat split. unfold progress. unfold_M. cbn. by rewrite lookup_insert_eq.
Qed.

Lemma convert_accepts_witness :
  ∃ w',
    convert ascii_lower (λ _, None) (λ _, None) id "/tmp" "j2"
      (Request None ∅ (Some "Holiday.MOV")) finished_world
    = (Ok (Accepted "j2" (Spawn "/tmp/flask_gif_input_j2_Holiday.MOV"
                            "/tmp/flask_gif_output_j2.gif" default_params "j2")), w') ∧
    conversion_tasks w'
    = <["j2" := submitted_entry "flask_gif_output_j2.gif"]> (conversion_tasks finished_world) ∧
    files w' = {[ "/tmp/flask_gif_input_j2_Holiday.MOV" ]} ∪ files finished_world ∧
    submitted_entry "flask_gif_output_j2.gif" !! "output_filename"
    = Some (VStr "flask_gif_output_j2.gif") ∧
    status_of (submitted_entry "flask_gif_output_j2.gif") = Some (VStr "processing") ∧
    progress_of (submitted_entry "flask_gif_output_j2.gif") = Some (VInt 0) ∧
    progress "j2" w' = (Ok (submitted_entry "flask_gif_output_j2.gif", 200), w').
Proof.
  apply (convert_accepts ascii_lower (λ _, None) (λ _, None) id "/tmp" "j2" "Holiday.MOV"
           (Request None ∅ (Some "Holiday.MOV")) default_params finished_world);
    reflexivity.
Defined.

(** X10: a form field that [int] or [float] refuses. The upload has
    passed the extension check and has already been saved when the
    parameters are read, so the handler ends in an uncaught [ValueError]
    with the input file on disk and no job registered for it. *)
Theorem convert_bad_parameter_leaves_input
    (lower : string → string)
    (parse_int : string → option Z) (parse_float : string → option Q)
    (secure_filename : string → string) (tmp job_id filename : string)
    (req : request) (w : world) :
  req_video req = Some filename →
  allowed_file lower filename = true →
  read_params parse_int parse_float (req_form req) = None →
  ∃ w',
    convert lower parse_int parse_float secure_filename tmp job_id req w
    = (Ok UncaughtValueError, w') ∧
    conversion_tasks w' = conversion_tasks w ∧
    files w' = {[path_join tmp (input_name job_id (secure_filename filename))]} ∪ files w.
Proof.
  intros Hvideo Hallowed Hparams. unfold convert.
  rewrite Hvideo, Hallowed, (allowed_file_nonempty _ _ Hallowed), Hparams. cbn.
  by eexists.
Qed.

Lemma convert_bad_parameter_leaves_input_witness :
  ∃ w',
    convert ascii_lower (λ _, None) (λ _, None) id "/tmp" "j2"
      (Request None {[ "fps" := "ten" ]} (Some "a.mp4")) empty_world
    = (Ok UncaughtValueError, w') ∧
    conversion_tasks w' = conversion_tasks empty_world ∧
    files w' = {[ "/tmp/flask_gif_input_j2_a.mp4" ]} ∪ files empty_world.
Proof.
  apply (convert_bad_parameter_leaves_input ascii_lower (λ _, None) (λ _, None) id "/tmp" "j2" "a.mp4"
           (Request None {[ "fps" := "ten" ]} (Some "a.mp4")) empty_world);
    reflexivity.
Defined.

(** X11: a submission that does not present the configured key is turned
    away before the view runs: the answer is 401 when no credential is
    given and 403 when a wrong one is, and nothing is saved or
    registered. *)
Theorem convert_route_unauthorized
    (lower : string → string)
    (parse_int : string → option Z) (parse_float : string → option Q)
    (secure_filename : string → string) (API_KEY tmp job_id : string)
    (req : request) (w : world) :
  py_or (req_header_key req) (req_form req !! "api_key") ≠ Some API_KEY →
  ∃ error code,
    convert_route lower parse_int parse_float secure_filename API_KEY tmp job_id req w
    = (Rejected error code, w) ∧
    (code = 401 ∨ code = 403) ∧
    (code = 401 ↔ truthy (py_or (req_header_key req) (req_form req !! "api_key")) = false).
Proof.
  intros Hkey. unfold convert_route, require_api_key.
  destruct (truthy (py_or _ _)) eqn:Ht; cbn.
  - rewrite bool_decide_eq_false_2 by done. cbn.
    eexists _, _. split; [reflexivity|]. split; [by right|]. split; discriminate.
  - eexists _, _. split; [reflexivity|]. split; [by left|]. done.
Qed.

Lemma convert_route_unauthorized_witness :
  ∃ error code,
    convert_route ascii_lower (λ _, None) (λ _, None) id "k3y" "/tmp" "j2"
      (Request (Some "guess") ∅ (Some "a.mp4")) empty_world
    = (Rejected error code, empty_world) ∧
    (code = 401 ∨ code = 403) ∧
    (code = 401 ↔
       truthy (py_or (Some "guess") ((∅ : gmap string string) !! "api_key")) = false).
Proof.
  apply (convert_route_unauthorized ascii_lower (λ _, None) (λ _, None) id "k3y" "/tmp" "j2"
           (Request (Some "guess") ∅ (Some "a.mp4")) empty_world).
  discriminate.
Defined.

(** ** The runner and the registry *)

Lemma registry_frame_refl j t : registry_frame j t t.
Proof. by split. Qed.

Lemma registry_frame_report j p t w :
  registry_frame j t (conversion_tasks w) →
  registry_frame j t (conversion_tasks (report j p w)).
Proof.
  intros [Hother Hkeys]. rewrite tasks_report.
  destruct (conversion_tasks w !! j) as [task|] eqn:Hin; [|by split].
  split.
  - intros other Hne. rewrite lookup_insert_ne by done. by apply Hother.
  - intros key Hkey. rewrite <- (Hkeys key Hkey). unfold job_field.
    rewrite lookup_insert_eq, Hin. cbn. by rewrite lookup_insert_ne.
Qed.

Ltac frame :=
  repeat first
    [ apply registry_frame_report
    | match goal with
      | H : conversion_tasks ?w = _ |- context [conversion_tasks ?w] => rewrite H
      end
    | progress cbn [conversion_tasks close_world set_readers set_files emit] ];
  apply registry_frame_refl.

(** With the runner's callback the adapter writes nothing into the
    registry but the ['progress'] of its own job. *)
Lemma adapter_registry_frame lib inp out fps scale st d loops speed j w r w' :
  convert_video_to_gif_web lib inp out fps scale st d loops speed
    (Some (update_progress j)) w = (r, w') →
  registry_frame j (conversion_tasks w) (conversion_tasks w').
Proof.
  unfold convert_video_to_gif_web, VideoFileClip, lib_call. run_M.
  destruct (fault lib CallVideoFileClip) as [msg|] eqn:Hopen; run_M.
  { intros [= <- <-]. frame. }
  next_transform; [|intros [= <- <-]; use_silent; frame]. run_M.
  next_transform; [|intros [= <- <-]; use_silent; frame]. run_M.
  next_transform; [|intros [= <- <-]; use_silent; frame..]. run_M.
  next_transform; [|intros [= <- <-]; use_silent; frame]. run_M.
  use_silent. rewrite write_and_verify_outcome.
  destruct (fault lib CallWriteGif) as [msg|]; [intros [= <- <-]; frame|].
  cbn zeta. destruct (produces_output lib); case_bool_decide; intros [= <- <-]; frame.
Qed.

Lemma files_cleanup lib inp w :
  fault lib CallUnlink = None → files (cleanup lib inp w) = files w ∖ {[inp]}.
Proof.
  intros Hunlink. unfold cleanup. rewrite Hunlink. case_bool_decide as Hin; [done|].
  apply set_eq. intros p. rewrite elem_of_difference, elem_of_singleton.
  split; [|by intros [? _]]. intros Hp. split; [done|]. by intros ->.
Qed.

Lemma files_cleanup_other lib inp w p :
  p ≠ inp → p ∈ files (cleanup lib inp w) ↔ p ∈ files w.
Proof.
  intros Hp. unfold cleanup. case_bool_decide; [|done].
  destruct (fault lib CallUnlink); [done|]. cbn.
  rewrite elem_of_difference, elem_of_singleton. split; [by intros [? _] | done].
Qed.

Lemma files_cleanup_fails lib inp w :
  fault lib CallUnlink ≠ None → files (cleanup lib inp w) = files w.
Proof.
  intros Hunlink. unfold cleanup. case_bool_decide; [|done].
  by destruct (fault lib CallUnlink).
Qed.

Lemma adapter_files lib out w r w' :
  adapter_exit lib out w r w' →
  ∀ p, p ≠ out → (p ∈ files w' ↔ p ∈ files w).
Proof.
  intros Hexit p Hp.
  destruct Hexit as [w' _ _ _ _ _ Hf _ | ? w' _ _ _ _ Hf | ? w' _ _ _ _ _ Hf
                    | w' _ _ _ _ _ _ _ Hf | ? ? ? w' _ _ _ _ _ _ Hf]; rewrite Hf; try done.
  destruct (produces_output lib); [|done].
  rewrite elem_of_union, elem_of_singleton. split; [by intros [?|?] | by right].
Qed.

(** X12: the runner never raises, whatever the library and the operating
    system do. It removes the input file unless [os.unlink] fails, in which
    case the failure is swallowed and the file stays. Apart from the input
    and the output file it leaves the files alone, and it touches no other
    job's entry. *)
Theorem background_convert_cleans_up
    (lib : library) (inp out : string) (ps : params) (j : string) (w : world) :
  ∃ w',
    background_convert lib inp out ps j w = (Ok tt, w') ∧
    (fault lib CallUnlink = None → inp ∉ files w') ∧
    (fault lib CallUnlink ≠ None → inp ≠ out → (inp ∈ files w' ↔ inp ∈ files w)) ∧
    (∀ p, p ≠ inp → p ≠ out → (p ∈ files w' ↔ p ∈ files w)) ∧
    (∀ other, other ≠ j → conversion_tasks w' !! other = conversion_tasks w !! other).
Proof.
  destruct (convert_video_to_gif_web lib inp out (p_fps ps) (p_scale ps) (p_start_time ps)
              (p_duration ps) (p_loops ps) (p_speed ps) (Some (update_progress j))
              (snd (tasks_setitem j processing_entry w))) as [r w1] eqn:Hrun.
  destruct (background_convert_outcome _ _ _ _ _ _ _ _ Hrun) as (task1 & Hin & Hbg).
  destruct (adapter_exits _ _ _ _ _ _ _ _ _ _ _ _ _ Hrun) as [Hexit _].
  destruct (adapter_registry_frame _ _ _ _ _ _ _ _ _ _ _ _ _ Hrun) as [Hother _].
  eexists. split; [exact Hbg|]. rewrite tasks_cleanup. cbn.
  split; [|split; [|split]].
  - intros Hunlink. rewrite (files_cleanup _ _ _ Hunlink).
    rewrite elem_of_difference, elem_of_singleton. by intros [_ ?].
  - intros Hunlink Hout. rewrite (files_cleanup_fails _ _ _ Hunlink). cbn.
    by rewrite (adapter_files _ _ _ _ _ Hexit inp Hout).
  - intros p Hinp Hout. rewrite (files_cleanup_other _ _ _ _ Hinp). cbn.
    by rewrite (adapter_files _ _ _ _ _ Hexit p Hout).
  - intros other Hne. rewrite lookup_insert_ne by done.
    rewrite (Hother other Hne). cbn. by rewrite lookup_insert_ne.
Qed.

Lemma background_convert_cleans_up_witness :
  ∃ w',
    background_convert start_past_end "/tmp/flask_gif_input_j1_in.mp4"
      "/tmp/flask_gif_output_j1.gif" default_params "j1" submitted_world = (Ok tt, w') ∧
    (fault start_past_end CallUnlink = None → "/tmp/flask_gif_input_j1_in.mp4" ∉ files w') ∧
    (fault start_past_end CallUnlink ≠ None →
       "/tmp/flask_gif_input_j1_in.mp4" ≠ "/tmp/flask_gif_output_j1.gif" →
       ("/tmp/flask_gif_input_j1_in.mp4" ∈ files w' ↔
        "/tmp/flask_gif_input_j1_in.mp4" ∈ files submitted_world)) ∧
    (∀ p, p ≠ "/tmp/flask_gif_input_j1_in.mp4" → p ≠ "/tmp/flask_gif_output_j1.gif" →
          (p ∈ files w' ↔ p ∈ files submitted_world)) ∧
    (∀ other, other ≠ "j1" →
          conversion_tasks w' !! other = conversion_tasks submitted_world !! other).
Proof. apply background_convert_cleans_up. Defined.

Lemma verdict_no_filename (r : result bool) : verdict r !! "output_filename" = None.
Proof. by destruct r as [[|]|e]. Qed.

(** X13: the runner starts from a fresh two-key entry, so whatever was
    registered for the job before it ran, the entry it leaves has no
    ['output_filename']. If the runner's first statement comes after
    [convert] has stored the job (nothing orders the two), a job that
    completes cannot be retrieved: [download] raises [KeyError]. *)
Theorem background_convert_drops_output_filename
    (lib : library) (inp out : string) (ps : params) (j : string) (w : world) :
  ∃ w' task',
    background_convert lib inp out ps j w = (Ok tt, w') ∧
    conversion_tasks w' !! j = Some task' ∧
    task' !! "output_filename" = None ∧
    (status_of task' = Some (VStr "completed") →
     ∀ tmp, download tmp j w' = (Raise (KeyError "output_filename"), w')).
Proof.
  destruct (convert_video_to_gif_web lib inp out (p_fps ps) (p_scale ps) (p_start_time ps)
              (p_duration ps) (p_loops ps) (p_speed ps) (Some (update_progress j))
              (snd (tasks_setitem j processing_entry w))) as [r w1] eqn:Hrun.
  destruct (background_convert_outcome _ _ _ _ _ _ _ _ Hrun) as (task1 & Hin & Hbg).
  destruct (adapter_registry_frame _ _ _ _ _ _ _ _ _ _ _ _ _ Hrun) as [_ Hkeys].
  assert (Hnone : task1 !! "output_filename" = None).
  { specialize (Hkeys "output_filename"). unfold job_field in Hkeys.
    rewrite Hin in Hkeys. cbn in Hkeys. rewrite lookup_insert_eq in Hkeys. cbn in Hkeys.
    by apply Hkeys. }
  assert (Hentry : dict_update (verdict r) task1 !! "output_filename" = None).
  { apply lookup_union_None. split; [apply verdict_no_filename | done]. }
  eexists _, _. split; [exact Hbg|]. rewrite tasks_cleanup. cbn.
  rewrite lookup_insert_eq. split; [reflexivity|]. split; [exact Hentry|].
  intros Hst tmp. unfold download. unfold_M. cbn.
  rewrite tasks_cleanup. cbn. rewrite lookup_insert_eq.
  unfold status_of in Hst. rewrite bool_decide_eq_false_2 by (intros Hc; by apply Hc).
  by rewrite Hentry.
Qed.

(** Without a step of another thread in between, the interleaved runner
    is the runner. *)
Lemma background_convert_at_id lib inp out ps j w :
  background_convert_at (λ w, w) lib inp out ps j w = background_convert lib inp out ps j w.
Proof. reflexivity. Qed.




(** ** More on the adapter *)











Lemma bind_ext {A B} (m : M A) (k1 k2 : A → M B) (w : world) :
  (∀ a w', k1 a w' = k2 a w') → (m ≫= k1) w = (m ≫= k2) w.
Proof.
  intros Hk. unfold mbind, M_bind. destruct (m w) as [[a|e] w']; [apply Hk | done].
Qed.

Lemma apply_speed_nonpositive lib c (speed : Q) :
  (speed <= 0)%Q → apply_speed lib c speed = apply_speed lib c 1.
Proof.
  intros Hs%Qgt_bool_false. unfold apply_speed. rewrite Hs. cbn.
  by destruct (negb (Qeq_bool speed 1)).
Qed.

(** X16: a speed that is zero or negative is treated as 1.0: the whole
    conversion (result, files, registry, calls made, progress reported) is
    the one obtained with [speed = 1.0], for every library behaviour and
    every callback. *)
Theorem nonpositive_speed_is_unit_speed
    (lib : library) (inp out : string) (fps : Z) (scale st : Q) (d : option Q)
    (loops : Z) (speed : Q) (cb : option (Z → M unit)) (w : world) :
  (speed <= 0)%Q →
  convert_video_to_gif_web lib inp out fps scale st d loops speed cb w
  = convert_video_to_gif_web lib inp out fps scale st d loops 1 cb w.
Proof.
  intros Hspeed. unfold convert_video_to_gif_web.
  apply bind_ext. intros _ w1. apply bind_ext. intros [c|] w2; [|done].
  apply bind_ext. intros _ w3. apply bind_ext. intros c1 w4.
  apply bind_ext. intros _ w5. by rewrite apply_speed_nonpositive.
Qed.

Lemma nonpositive_speed_is_unit_speed_witness :
  convert_video_to_gif_web (Library 10 640 360 (λ _, None) true) "/tmp/in.mp4" "/tmp/out.gif"
    10 (1#2) 0 None 0 (-2) None empty_world
  = convert_video_to_gif_web (Library 10 640 360 (λ _, None) true) "/tmp/in.mp4" "/tmp/out.gif"
      10 (1#2) 0 None 0 1 None empty_world.
Proof.
  apply nonpositive_speed_is_unit_speed. discriminate.
Defined.

Lemma apply_window_ok lib c st d w :
  fault lib CallSubclipped = None →
  ∃ c' w', apply_window lib c st d w = (Ok c', w') ∧ silent w w' ∧
           w_of c' = w_of c ∧ h_of c' = h_of c ∧
           trace w' = trace w ++ window_events st d (duration_of c).
Proof.
  intros Hc. unfold apply_window, window_events, subclipped.
  destruct (subclip_window _ _ _) as [[t0 t1]|].
  - unfold mbind, M_bind. rewrite lib_call_ok by done. eexists _, _.
    split; [reflexivity|]. split; [by apply silent_emit | done].
  - eexists _, _. split; [reflexivity|]. split; [apply silent_refl|].
    by rewrite app_nil_r.
Qed.

Lemma apply_speed_ok lib c speed w :
  fault lib CallWithSpeedScaled = None →
  ∃ c' w', apply_speed lib c speed w = (Ok c', w') ∧ silent w w' ∧
           w_of c' = w_of c ∧ h_of c' = h_of c ∧
           trace w' = trace w ++ speed_events speed.
Proof.
  intros Hc. unfold apply_speed, speed_events, with_speed_scaled.
  destruct (negb (Qeq_bool speed 1)); cbn [andb];
    [destruct (Qgt_bool speed 0)|].
  - unfold mbind, M_bind. rewrite lib_call_ok by done. eexists _, _.
    split; [reflexivity|]. split; [by apply silent_emit | done].
  - eexists _, _. split; [reflexivity|]. split; [apply silent_refl|]. by rewrite app_nil_r.
  - eexists _, _. split; [reflexivity|]. split; [apply silent_refl|]. by rewrite app_nil_r.
Qed.

Lemma apply_scale_ok lib c scale w :
  fault lib CallInt = None →
  fault lib CallResized = None →
  ∃ c' w', apply_scale lib c scale w = (Ok c', w') ∧ silent w w' ∧
           trace w' = trace w ++ scale_events scale (w_of c) (h_of c).
Proof.
  intros Hint Hc. unfold apply_scale, scale_events, resized, new_size.
  destruct (negb (Qeq_bool scale 1)).
  - unfold mbind, M_bind. rewrite Hint. cbn [fst snd].
    rewrite lib_call_ok by done. eexists _, _.
    split; [reflexivity|]. split; [by apply silent_emit | done].
  - eexists _, _. split; [reflexivity|]. split; [apply silent_refl|]. by rewrite app_nil_r.
Qed.

Lemma with_fps_ok lib c fps w :
  fault lib CallWithFps = None →
  with_fps lib c fps w = (Ok c, emit (WithFps fps) w).
Proof. intros Hc. unfold with_fps, mbind, M_bind. by rewrite lib_call_ok. Qed.

Ltac trace_of :=
  repeat first
    [ rewrite trace_report
    | match goal with
      | H : trace ?w = _ |- context [trace ?w] => rewrite H
      end
    | progress cbn [trace close_world set_readers set_files emit w_of h_of duration_of] ].

(** X17: the order of a conversion in which no call fails (no library
    call, and not [int(...)] on the new size), with the runner's callback.
    The source is opened, the time window is cut (if one is asked for), the
    speed is changed (only for a positive speed other than 1.0), the frame
    is resized (only for a scale other than 1.0) to the truncated float
    products of the source's width and height by the scale, the frame rate
    is set last, the GIF is written and the clip is closed, with the
    checkpoints 5, 20, 40, 50, 70, 80 reported in between. The result is
    success, with 100 reported, exactly when the output file exists after
    [write_gif]; otherwise -1 is reported. *)
Theorem conversion_order
    (lib : library) (inp out : string) (fps : Z) (scale st : Q) (d : option Q)
    (loops : Z) (speed : Q) (j : string) (w : world) :
  (∀ c, fault lib c = None) →
  ∃ w',
    let ok := bool_decide (out ∈ files w) || produces_output lib in
    convert_video_to_gif_web lib inp out fps scale st d loops speed
      (Some (update_progress j)) w = (Ok ok, w') ∧
    trace w' =
      trace w ++ [Progress 5; Opened inp; Progress 20]
        ++ window_events st d (source_duration lib) ++ [Progress 40]
        ++ speed_events speed ++ [Progress 50]
        ++ scale_events scale (source_w lib) (source_h lib) ++ [Progress 70]
        ++ [WithFps fps; Progress 80; WroteGif out fps loops;
            Progress (if ok then 100 else -1); Closed].
Proof.
  intros Hnofault. cbn zeta.
  unfold convert_video_to_gif_web, VideoFileClip. run_M.
  rewrite lib_call_ok by done. run_M.
  match goal with
  | |- context [apply_window ?l ?c ?s ?dd ?ww] =>
      destruct (apply_window_ok l c s dd ww) as (c1 & w1 & Hrun1 & Hs1 & Hw1 & Hh1 & Ht1);
        [done|]; rewrite Hrun1
  end. run_M.
  match goal with
  | |- context [apply_speed ?l ?c ?s ?ww] =>
      destruct (apply_speed_ok l c s ww) as (c2 & w2 & Hrun2 & Hs2 & Hw2 & Hh2 & Ht2);
        [done|]; rewrite Hrun2
  end. run_M.
  match goal with
  | |- context [apply_scale ?l ?c ?s ?ww] =>
      destruct (apply_scale_ok l c s ww) as (c3 & w3 & Hrun3 & Hs3 & Ht3);
        [done|done|]; rewrite Hrun3
  end. run_M.
  rewrite with_fps_ok by done. run_M.
  rewrite write_and_verify_outcome, Hnofault. cbn zeta.
  rewrite Hw2, Hw1, Hh2, Hh1 in Ht3. cbn [w_of h_of duration_of] in Ht1, Ht3.
  use_silent.
  assert (Hfiles : files w3 = files w) by settle.
  destruct (produces_output lib); cbn [files set_files emit];
    rewrite ?files_report; cbn [files set_files emit]; rewrite ?files_report, ?Hfiles.
  - rewrite bool_decide_eq_true_2
      by (apply elem_of_union; left; by apply elem_of_singleton).
    rewrite orb_true_r. eexists. split; [reflexivity|].
    trace_of. rewrite <- !app_assoc. reflexivity.
  - rewrite orb_false_r. destruct (bool_decide (out ∈ files w));
      (eexists; split; [reflexivity|]; trace_of; rewrite <- !app_assoc; reflexivity).
Qed.

Lemma conversion_order_witness :
  ∃ w',
    let ok := bool_decide ("/tmp/out.gif" ∈ files empty_world) || true in
    convert_video_to_gif_web (Library 10 640 360 (λ _, None) true) "/tmp/in.mp4" "/tmp/out.gif"
      12 (round64 (7#10)) 8 (Some 5%Q) 0 2 (Some (update_progress "j1")) empty_world
    = (Ok ok, w') ∧
    trace w' =
      trace empty_world ++ [Progress 5; Opened "/tmp/in.mp4"; Progress 20]
        ++ window_events 8 (Some 5%Q) 10 ++ [Progress 40]
        ++ speed_events 2 ++ [Progress 50]
        ++ scale_events (round64 (7#10)) 640 360 ++ [Progress 70]
        ++ [WithFps 12; Progress 80; WroteGif "/tmp/out.gif" 12 0;
            Progress (if ok then 100 else -1); Closed].
Proof.
  apply (conversion_order (Library 10 640 360 (λ _, None) true)). reflexivity.
Defined.

(** The resize of a 640x360 source at scale 0.7 is to 448x251: the float
    product 360 * 0.7 lies just below 252. *)
Lemma scale_events_rounding :
  scale_events (round64 (7#10)) 640 360 = [Resized 448 251] ∧
  window_events 8 (Some 5%Q) 10 = [Subclipped 8 (Some 10%Q)].
Proof. split; vm_compute; reflexivity. Qed.


(** ** More on the filename check and the progress hook *)

Lemma has_dot_append (name rest : string) :
  has_dot (name +:+ rest) = has_dot name || has_dot rest.
Proof.
  induction name as [|c name IH]; [done|].
  change (is_dot c || has_dot (name +:+ rest) = is_dot c || has_dot name || has_dot rest).
  by rewrite IH, orb_assoc.
Qed.

Lemma rsplit_last_dot_join (name ext : string) :
  has_dot ext = false →
  rsplit_last_dot (name +:+ "." +:+ ext) = Some (name, ext).
Proof.
  intros Hext. induction name as [|c name IH].
  - apply rsplit_last_dot_None in Hext.
    change (match rsplit_last_dot ext with
            | Some (before, after) => Some (String "." before, after)
            | None => Some (EmptyString, ext)
            end = Some (EmptyString, ext)).
    by rewrite Hext.
  - change (match rsplit_last_dot (name +:+ "." +:+ ext) with
            | Some (before, after) => Some (String c before, after)
            | None => if is_dot c then Some (EmptyString, name +:+ "." +:+ ext) else None
            end = Some (String c name, ext)).
    by rewrite IH.
Qed.

(** X18: for a file name written as a stem, a dot and an extension without
    dots, the check looks at the extension alone: with Python's
    [str.lower] for [lower], the name is accepted exactly when the
    lowercased extension is one of the allowed ones, whatever the stem is
    (empty, or with dots of its own). *)
Theorem allowed_file_by_extension (lower : string → string) (name ext : string) :
  has_dot ext = false →
  allowed_file lower (name +:+ "." +:+ ext) = bool_decide (lower ext ∈ ALLOWED_EXTENSIONS).
Proof.
  intros Hext. unfold allowed_file, rsplit1.
  rewrite (rsplit_last_dot_join _ _ Hext), !has_dot_append.
  change (has_dot ".") with true. by rewrite orb_true_r.
Qed.

Lemma allowed_file_by_extension_witness :
  allowed_file ascii_lower ("my.holiday.clip" +:+ "." +:+ "WebM")
  = bool_decide (ascii_lower "WebM" ∈ ALLOWED_EXTENSIONS).
Proof. apply allowed_file_by_extension. reflexivity. Defined.

(** X19: a progress report that arrives after the job has been retrieved
    does not bring the job back: the hook returns without touching the
    world, and a poll after it still answers 404. More generally the hook
    never adds or removes a job id. *)
Theorem late_progress_after_download (tmp job_id path : string) (percent : Z) (w w' : world) :
  download tmp job_id w = (Ok (SendFile path), w') →
  update_progress job_id percent w' = (Ok tt, w') ∧
  progress job_id (snd (update_progress job_id percent w'))
  = (Ok ({[ "error" := VStr "Job not found" ]}, 404), w') ∧
  ∀ other p v, dom (conversion_tasks (snd (update_progress other p v))) = dom (conversion_tasks v).
Proof.
  intros Hdl.
  assert (Hgone : conversion_tasks w' !! job_id = None).
  { destruct (download_sends_inv _ _ _ _ _ Hdl) as (_ & _ & _ & _ & _ & _ & _ & ->).
    cbn. apply lookup_delete_eq. }
  split; [|split].
  - by apply update_progress_absent.
  - rewrite (update_progress_absent _ _ _ Hgone). cbn [snd].
    unfold progress. unfold_M. cbn. by rewrite Hgone.
  - intros other p v. unfold update_progress.
    destruct (conversion_tasks v !! other) as [task|] eqn:Hin; [|done].
    cbn. rewrite dom_insert_L. apply subseteq_union_1_L, singleton_subseteq_l.
    by apply elem_of_dom_2 in Hin.
Qed.

Lemma late_progress_after_download_witness :
  let w' := snd (download "/tmp" "j1" finished_world) in
  update_progress "j1" 80 w' = (Ok tt, w') ∧
  progress "j1" (snd (update_progress "j1" 80 w'))
  = (Ok ({[ "error" := VStr "Job not found" ]}, 404), w') ∧
  ∀ other p v, dom (conversion_tasks (snd (update_progress other p v))) = dom (conversion_tasks v).
Proof.
  apply (late_progress_after_download "/tmp" "j1" "/tmp/flask_gif_output_j1.gif" 80
           finished_world).
  vm_compute. reflexivity.
Defined.
